(** * Task-to-text synchronisation core of the kanban plugin

    A shallow embedding of [createTaskActions] and [updateRow]
    (ui/tasks/actions.ts, in its current and its earlier revision) and the
    properties of the row synchroniser and of the task action dispatcher.

    Conventions.
    - A JavaScript string is a [string]; its code units are modelled as
      [ascii] characters.  The only character the code inspects in a document
      is the line feed.
    - A [TFile] handle is identified with the vault path of the file.
    - A row index is a natural number, [None] standing for [undefined].
    - [viewFile] only drives the presentation layer and is not embedded;
      of the file chooser, the folder it builds and the clicks on its menus
      are embedded, the titles and positions of the menus are not.
    - An [async] function is a state transformer over the vault returning an
      [Outcome]: the promise is either resolved with a value or rejected with
      the error of the store operation that failed. *)

From stdpp Require Import base gmap list strings.
From Stdlib Require Import Ascii ZArith Lia.

Local Open Scope stdpp_scope.

(** ** JavaScript strings *)

Module JsString.

(** The line feed, the separator of [file.split("\n")] and
    [rows.join("\n")]. *)
Definition LF : ascii := Ascii.ascii_of_nat 10.
Definition NL : string := String LF EmptyString.

(** [s.split(sep)] for a separator of one character: the result is never
    empty, and a string without separator is returned whole. *)
Fixpoint split (sep : ascii) (s : string) : list string :=
  match s with
  | EmptyString => [EmptyString]
  | String c s' =>
      if Ascii.eqb c sep then EmptyString :: split sep s'
      else match split sep s' with
           | [] => [String c EmptyString]
           | row :: rows => String c row :: rows
           end
  end.

(** [rows.join(sep)]. *)
Definition join (sep : ascii) (rows : list string) : string :=
  String.concat (String sep EmptyString) rows.

(** Does the character occur in the string? *)
Fixpoint has_char (c : ascii) (s : string) : bool :=
  match s with
  | EmptyString => false
  | String c' s' => Ascii.eqb c' c || has_char c s'
  end.

(** [s.endsWith(suffix)]. *)
Fixpoint endsWith (s suffix : string) : bool :=
  String.eqb s suffix ||
  match s with
  | EmptyString => false
  | String _ s' => endsWith s' suffix
  end.

(** [s.lastIndexOf(c)] for a one-character needle: -1 when absent. *)
Fixpoint lastIndexOf (c : ascii) (s : string) : Z :=
  match s with
  | EmptyString => (-1)%Z
  | String c' s' =>
      let i := lastIndexOf c s' in
      if (0 <=? i)%Z then (i + 1)%Z
      else if Ascii.eqb c' c then 0%Z else (-1)%Z
  end.

(** [s.substring(0, e)]: a negative end is clamped to 0, an end beyond
    the string to its length. *)
Definition substring0 (e : Z) (s : string) : string :=
  String.substring 0 (Z.to_nat e) s.

(** [s.replace(/\/+/g, "/")]: every run of slashes becomes one slash. *)
Fixpoint collapse_slashes (s : string) : string :=
  match s with
  | EmptyString => EmptyString
  | String c s' =>
      if Ascii.eqb c "/" then
        match s' with
        | String c' _ =>
            if Ascii.eqb c' "/" then collapse_slashes s'
            else String c (collapse_slashes s')
        | EmptyString => String c EmptyString
        end
      else String c (collapse_slashes s')
  end.

(** [/^[/\\]/.test(s)]. *)
Definition starts_with_separator (s : string) : bool :=
  match s with
  | String c _ => Ascii.eqb c "/" || Ascii.eqb c "\"
  | EmptyString => false
  end.

(** White space removed by [trim], restricted to the characters below
    128: tab, line feed, vertical tab, form feed, carriage return, space. *)
Definition is_white (c : ascii) : bool :=
  let n := Ascii.nat_of_ascii c in
  (n =? 9) || (n =? 10) || (n =? 11) || (n =? 12) || (n =? 13) || (n =? 32).

(** Truthiness of [s.trim()]: some character is not white space. *)
Fixpoint trim_truthy (s : string) : bool :=
  match s with
  | EmptyString => false
  | String c s' => negb (is_white c) || trim_truthy s'
  end.

(** Truthiness of a string: it is not empty. *)
Definition truthy (s : string) : bool :=
  match s with EmptyString => false | String _ _ => true end.

End JsString.

(** ** JavaScript arrays of rows *)

Module JsArray.

(** [rows[i] = x].  Inside the array the element is replaced; at or past
    the end the array is extended, the skipped positions being holes, which
    [join] prints as empty strings. *)
Definition set (rows : list string) (i : nat) (x : string) : list string :=
  if decide (i < length rows) then <[i := x]> rows
  else rows ++ replicate (i - length rows) EmptyString ++ [x].

(** [rows.splice(i, 1)]: removes the element at [i], nothing when [i] is
    at or past the end. *)
Definition splice1 (rows : list string) (i : nat) : list string :=
  delete i rows.

End JsArray.

(** ** The document store *)

(** Modelled from the spec: the document store (Obsidian's [Vault] and its
    adapter) is an external collaborator whose code is not part of the
    repository.  Section 6 of the specification gives its interface:
    [read], [modify], [exists], [create] and [createFolder], each
    asynchronous and each possibly failing with a store-level error.  The
    store is a finite map from paths to files and folders; [faulty] says which
    operations the environment makes fail, and [log] records every call,
    newest first. *)
Module Store.

Inductive Node : Type :=
| File (data : string)
| Folder.

Inductive StoreOp : Type :=
| OpRead | OpModify | OpExists | OpCreate | OpCreateFolder.

Inductive IOError : Type :=
| StoreFault (op : StoreOp) (path : string)
| NotAFile (path : string)
| AlreadyExists (path : string).

Inductive Event : Type :=
| EvRead (handle : string)
| EvModify (handle data : string)
| EvExists (path : string)
| EvCreate (path data : string)
| EvCreateFolder (path : string)
| EvUnhandledRejection (e : IOError)
| EvShowChooser (column : string).

Record Vault : Type := mkVault {
  nodes : gmap string Node;
  faulty : StoreOp → string → bool;
  log : list Event;
}.

(** The settled state of a promise. *)
Inductive Outcome (A : Type) : Type :=
| Resolved (a : A)
| Rejected (e : IOError).
Global Arguments Resolved {A} a.
Global Arguments Rejected {A} e.

(** An [async] function body. *)
Definition Async (A : Type) : Type := Vault → Outcome A * Vault.

Definition ret {A} (a : A) : Async A := fun v => (Resolved a, v).

(** [await m] followed by the rest of the body: a rejection of [m] is
    thrown at the [await] and rejects the whole body. *)
Definition bind {A B} (m : Async A) (k : A → Async B) : Async B :=
  fun v =>
    match m v with
    | (Resolved a, v') => k a v'
    | (Rejected e, v') => (Rejected e, v')
    end.

(** A call of an [async] function whose promise is dropped (no [await],
    no handler).  The callee still runs; its effects are sequenced at the
    call, which is exact when the caller returns right after it.  The caller
    goes on whatever the callee's outcome: a rejection reaches nobody and is
    reported by the runtime as an unhandled rejection. *)
Definition detach {A} (m : Async A) : Async unit :=
  fun v =>
    match m v with
    | (Resolved _, v') => (Resolved tt, v')
    | (Rejected e, v') =>
        (Resolved tt,
         mkVault (nodes v') (faulty v') (EvUnhandledRejection e :: log v'))
    end.

Definition emit (ev : Event) (v : Vault) : Vault :=
  mkVault (nodes v) (faulty v) (ev :: log v).

Definition put (path : string) (n : Node) (v : Vault) : Vault :=
  mkVault (<[path := n]> (nodes v)) (faulty v) (log v).

(** The content of the document behind a handle. *)
Definition content (v : Vault) (handle : string) : option string :=
  match nodes v !! handle with
  | Some (File data) => Some data
  | _ => None
  end.

(** [vault.read(handle)]. *)
Definition read (handle : string) : Async string :=
  fun v =>
    let v := emit (EvRead handle) v in
    if faulty v OpRead handle then (Rejected (StoreFault OpRead handle), v)
    else match content v handle with
         | Some data => (Resolved data, v)
         | None => (Rejected (NotAFile handle), v)
         end.

(** [vault.modify(handle, data)]. *)
Definition modify (handle data : string) : Async unit :=
  fun v =>
    let v := emit (EvModify handle data) v in
    if faulty v OpModify handle
    then (Rejected (StoreFault OpModify handle), v)
    else match content v handle with
         | Some _ => (Resolved tt, put handle (File data) v)
         | None => (Rejected (NotAFile handle), v)
         end.

(** [vault.adapter.exists(path)]. *)
Definition exists_ (path : string) : Async bool :=
  fun v =>
    let v := emit (EvExists path) v in
    if faulty v OpExists path then (Rejected (StoreFault OpExists path), v)
    else (Resolved (bool_decide (is_Some (nodes v !! path))), v).

(** [vault.create(path, data)]. *)
Definition create (path data : string) : Async unit :=
  fun v =>
    let v := emit (EvCreate path data) v in
    if faulty v OpCreate path then (Rejected (StoreFault OpCreate path), v)
    else match nodes v !! path with
         | Some _ => (Rejected (AlreadyExists path), v)
         | None => (Resolved tt, put path (File data) v)
         end.

(** [vault.createFolder(path)]. *)
Definition createFolder (path : string) : Async unit :=
  fun v =>
    let v := emit (EvCreateFolder path) v in
    if faulty v OpCreateFolder path
    then (Rejected (StoreFault OpCreateFolder path), v)
    else match nodes v !! path with
         | Some _ => (Rejected (AlreadyExists path), v)
         | None => (Resolved tt, put path Folder v)
         end.

(** [vault.getAbstractFileByPath(path)]: synchronous, it looks the path
    up and does not fail. *)
Definition getAbstractFileByPath (path : string) : Async (option Node) :=
  fun v => (Resolved (nodes v !! path), v).

(** The writes a log records. *)
Definition is_modify (ev : Event) : bool :=
  match ev with EvModify _ _ => true | _ => false end.

Definition modify_calls (v : Vault) : list Event :=
  List.filter is_modify (log v).

(** The document [handle] holds [data] and reading it does not fail. *)
Definition readable (v : Vault) (handle data : string) : Prop :=
  faulty v OpRead handle = false ∧ nodes v !! handle = Some (File data).

(** Writing the document does not fail either. *)
Definition writable (v : Vault) (handle data : string) : Prop :=
  readable v handle data ∧ faulty v OpModify handle = false.

End Store.

Import JsString Store.

Notation "'await' x ':=' m 'in' k" := (Store.bind m (fun x => k))
  (at level 10, x name, m at level 100, k at level 200, only parsing).
Notation "'await_' m 'in' k" := (Store.bind m (fun _ => k))
  (at level 10, m at level 100, k at level 200, only parsing).

(** ** The row synchroniser *)

(** The rows of a document: [file.split("\n")]. *)
Definition rows_of (file : string) : list string := split LF file.

(** [updateRow(vault, fileHandle, row, newText)] of the current revision.
    [row] is [None] for [undefined]. *)
Definition updateRow (fileHandle : string) (row : option nat)
    (newText : string) : Async unit :=
  await file := Store.read fileHandle in
  let rows := rows_of file in
  let row := match row with None => length rows | Some r => r end in
  if decide (length rows < row) then Store.ret tt
  else
    let rows :=
      if decide (newText = EmptyString) then JsArray.splice1 rows row
      else JsArray.set rows row newText in
    let newFile := join LF rows in
    Store.modify fileHandle newFile.

(** The earlier revision of the file: the row is always given and the text
    is always stored, also when it is empty. *)
Module Legacy.

Definition updateRow (fileHandle : string) (row : nat) (newText : string)
    : Async unit :=
  await file := Store.read fileHandle in
  let rows := rows_of file in
  if decide (length rows < row) then Store.ret tt
  else
    let rows := JsArray.set rows row newText in
    let newFile := join LF rows in
    Store.modify fileHandle newFile.

End Legacy.

(** The vault after a read of [handle] that is followed by no write. *)
Definition after_read (handle : string) (v : Vault) : Vault :=
  Store.emit (EvRead handle) v.

(** The vault after one read of [handle] and one write of [data] to it. *)
Definition after_update (handle data : string) (v : Vault) : Vault :=
  Store.put handle (File data)
    (Store.emit (EvModify handle data) (after_read handle v)).

(** ** Tasks and their metadata *)

(** Modelled from the spec: the [Task] class (./task) is not part of the
    sources at hand; the dispatcher assigns its fields [column], [done] and
    [content] and calls its methods [archive], [delete] and [serialise].  The
    class is taken as an interface; [serialise] receives the optional column
    override of [serialise({ column })]. *)
Module Task.

Class Model (T : Type) : Type := {
  serialise : option string → T → string;
  set_column : string → T → T;
  set_done : bool → T → T;
  set_content : string → T → T;
  archive : T → T;
  delete : T → T;
}.

End Task.

(** [Metadata] (./tasks): where the line of a task lives. *)
Record Metadata : Type := mkMetadata {
  fileHandle : string;
  rowIndex : nat;
}.

(** The click that triggers [addNew]; only the presence of [e.target] is
    observed before the chooser is built. *)
Record MouseEvent : Type := mkMouseEvent {
  hasTarget : bool;
}.

(** ** Placement of a new task: the path computations of [addNew] *)

Definition isAbsolutePath (defaultTaskPath : string) : bool :=
  starts_with_separator defaultTaskPath.

(** The first value of [fullPath]. *)
Definition resolvedPath (currentFilePath defaultTaskPath : string) : string :=
  if isAbsolutePath defaultTaskPath then defaultTaskPath
  else collapse_slashes (currentFilePath +:+ "/" +:+ defaultTaskPath).

(** "Add .md extension if needed". *)
Definition addMdExtension (fullPath : string) : string :=
  if negb (endsWith fullPath "/") && negb (endsWith fullPath "\")
     && negb (endsWith fullPath ".md")
  then fullPath +:+ ".md"
  else fullPath.

Definition fullPath (currentFilePath defaultTaskPath : string) : string :=
  addMdExtension (resolvedPath currentFilePath defaultTaskPath).

Definition folderPath (fullPath : string) : string :=
  substring0 (lastIndexOf "/" fullPath) fullPath.

(** The line of a new task: [`- [ ]  #${column}`]. *)
Definition newTaskLine (column : string) : string := "- [ ]  #" +:+ column.

(** The file picker of [addNew].  It belongs to the presentation layer: the
    model records that the chooser is shown, nothing of its menus. *)
Definition showChooser (column : string) (e : MouseEvent) : Async unit :=
  if hasTarget e
  then fun v => (Resolved tt, Store.emit (EvShowChooser column) v)
  else Store.ret tt.

(** The body of [addNew]; [defaultTaskPath] is the value read from the
    settings store and [currentFilePath] is
    the parent path of the active file, or the empty string when there is
    none. *)
Definition addNew_with (defaultTaskPath : option string)
    (currentFilePath : string) (column : string) (e : MouseEvent)
    : Async unit :=
  match defaultTaskPath with
  | Some defaultTaskPath =>
      if trim_truthy defaultTaskPath then
        let fullPath := fullPath currentFilePath defaultTaskPath in
        let folderPath := folderPath fullPath in
        await_ (if truthy folderPath then
                  await folderExists := Store.exists_ folderPath in
                  if folderExists : bool then Store.ret tt
                  else Store.createFolder folderPath
                else Store.ret tt) in
        await fileExists := Store.exists_ fullPath in
        await_ (if fileExists : bool then Store.ret tt
                else Store.create fullPath EmptyString) in
        await file := Store.getAbstractFileByPath fullPath in
        match file with
        | Some (File _) =>
            Store.detach (updateRow fullPath None (newTaskLine column))
        | _ => showChooser column e
        end
      else showChooser column e
  | None => showChooser column e
  end.

(** ** The task action dispatcher *)

Section Dispatcher.

Context {T : Type} `{Task.Model T}.

(** What [createTaskActions] closes over.  The task objects are mutated in
    place: a task of the map is replaced by its updated value.  Distinct ids
    are taken to hold distinct objects, as the scan builds them. *)
Record Board : Type := mkBoard {
  tasksByTaskId : gmap string T;
  metadataByTaskId : gmap string Metadata;
  vault : Vault;
  defaultTaskPath : option string;
  activeParentPath : option string;
}.

Definition with_tasks (tasks : gmap string T) (b : Board) : Board :=
  mkBoard tasks (metadataByTaskId b) (vault b) (defaultTaskPath b)
    (activeParentPath b).

Definition with_vault (v : Vault) (b : Board) : Board :=
  mkBoard (tasksByTaskId b) (metadataByTaskId b) v (defaultTaskPath b)
    (activeParentPath b).

(** An [async] body that only touches the vault, run on a board. *)
Definition on_vault {A} (m : Async A) (b : Board) : Outcome A * Board :=
  let (r, v) := m (vault b) in (r, with_vault v b).

Definition updateRowWithTask (id : string) (updater : T → T) (b : Board)
    : Outcome unit * Board :=
  match metadataByTaskId b !! id, tasksByTaskId b !! id with
  | Some metadata, Some task =>
      let task := updater task in
      let b := with_tasks (<[id := task]> (tasksByTaskId b)) b in
      let newTaskString := Task.serialise None task in
      on_vault
        (updateRow (fileHandle metadata) (Some (rowIndex metadata))
           newTaskString) b
  | _, _ => (Resolved tt, b)
  end.

Definition changeColumn (id column : string) :=
  updateRowWithTask id (Task.set_column column).

Definition markDone (id : string) :=
  updateRowWithTask id (Task.set_done true).

Definition updateContent (id content : string) :=
  updateRowWithTask id (Task.set_content content).

Fixpoint archiveTasks (ids : list string) (b : Board)
    : Outcome unit * Board :=
  match ids with
  | [] => (Resolved tt, b)
  | id :: ids =>
      match updateRowWithTask id Task.archive b with
      | (Resolved _, b') => archiveTasks ids b'
      | (Rejected e, b') => (Rejected e, b')
      end
  end.

Definition deleteTask (id : string) :=
  updateRowWithTask id Task.delete.

Definition addNew (column : string) (e : MouseEvent) (b : Board)
    : Outcome unit * Board :=
  on_vault
    (addNew_with (defaultTaskPath b)
       (default EmptyString (activeParentPath b)) column e) b.

(** The board after a line edit whose write the stale-position guard has
    aborted: the task carries the update, the vault has only been read. *)
Definition diverged (id : string) (task : T) (metadata : Metadata)
    (b : Board) : Board :=
  with_vault (after_read (fileHandle metadata) (vault b))
    (with_tasks (<[id := task]> (tasksByTaskId b)) b).

(** [changeColumn] of the earlier revision: the task is serialised with
    the new column and is not itself changed. *)
Definition legacy_changeColumn (id newColumn : string) (b : Board)
    : Outcome unit * Board :=
  match metadataByTaskId b !! id, tasksByTaskId b !! id with
  | Some metadata, Some task =>
      let newTaskString := Task.serialise (Some newColumn) task in
      on_vault
        (Legacy.updateRow (fileHandle metadata) (rowIndex metadata)
           newTaskString) b
  | _, _ => (Resolved tt, b)
  end.

End Dispatcher.

Global Arguments Board T : clear implicits.

(** ** A task implementation *)

(** Modelled from the spec: the checklist-line grammar of section 6 (an open
    or completed marker, the content, the tag token of the column), the
    archive transition as a change of column and the delete transition as a
    flag that makes [serialise] emit the empty string. *)
Module KanbanTask.

Record t : Type := mk {
  column : string;
  done : bool;
  content : string;
  deleted : bool;
}.

Definition serialise (override : option string) (task : t) : string :=
  if deleted task then EmptyString
  else "- [" +:+ (if done task then "x" else " ") +:+ "] "
       +:+ content task +:+ " #" +:+ default (column task) override.

Global Instance model : Task.Model t := {|
  Task.serialise := serialise;
  Task.set_column c task := mk c (done task) (content task) (deleted task);
  Task.set_done d task := mk (column task) d (content task) (deleted task);
  Task.set_content c task := mk (column task) (done task) c (deleted task);
  Task.archive task :=
    mk "archived" (done task) (content task) (deleted task);
  Task.delete task := mk (column task) (done task) (content task) true;
|}.

End KanbanTask.

(** ** Vocabulary of the properties *)

(** The vault after a call of [updateRow] has settled. *)
Definition run_updateRow (handle : string) (row : option nat) (text : string)
    (v : Vault) : Vault :=
  snd (updateRow handle row text v).

Definition run_legacy_updateRow (handle : string) (row : nat) (text : string)
    (v : Vault) : Vault :=
  snd (Legacy.updateRow handle row text v).

(** The three edits of a document, as texts: line [r] replaced, line [r]
    removed, a line appended. *)
Definition replaced (d : string) (r : nat) (text : string) : string :=
  join LF (<[r := text]> (rows_of d)).

Definition removed (d : string) (r : nat) : string :=
  join LF (delete r (rows_of d)).

Definition appended (d text : string) : string :=
  d +:+ String LF text.

(** The properties of the row synchroniser as the specification words them,
    at one input.  A document is the content of a file, its lines are
    [rows_of] of the content. *)
Module AsStated.

(** "For all D and r ≥ length(D), updateRow(D, r, anything) yields D
    unchanged", and no write is performed. *)
Definition beyond_end_unchanged (v : Vault) (h d : string) (r : nat)
    (text : string) : Prop :=
  writable v h d → length (rows_of d) ≤ r →
  ∃ v', updateRow h (Some r) text v = (Resolved tt, v')
        ∧ content v' h = Some d
        ∧ modify_calls v' = modify_calls v.

(** "updateRow(D, r, text) with a non-empty text yields a document
    identical to D except line r replaced by text; line count unchanged." *)
Definition row_replaced (v : Vault) (h d : string) (r : nat)
    (text : string) : Prop :=
  writable v h d → r < length (rows_of d) → text ≠ EmptyString →
  ∃ v' d', updateRow h (Some r) text v = (Resolved tt, v')
           ∧ content v' h = Some d'
           ∧ rows_of d' = <[r := text]> (rows_of d)
           ∧ length (rows_of d') = length (rows_of d).

(** "updateRow(D, r, empty text) yields a document with line r removed;
    line count decreases by exactly 1." *)
Definition row_removed (v : Vault) (h d : string) (r : nat) : Prop :=
  writable v h d → r < length (rows_of d) →
  ∃ v' d', updateRow h (Some r) EmptyString v = (Resolved tt, v')
           ∧ content v' h = Some d'
           ∧ rows_of d' = delete r (rows_of d)
           ∧ S (length (rows_of d')) = length (rows_of d).

(** "updateRow(D, undefined, text) with a non-empty text yields D with text
    appended as a new final line; line count increases by exactly 1." *)
Definition row_appended (v : Vault) (h d text : string) : Prop :=
  writable v h d → text ≠ EmptyString →
  ∃ v' d', updateRow h None text v = (Resolved tt, v')
           ∧ content v' h = Some d'
           ∧ rows_of d' = rows_of d ++ [text]
           ∧ length (rows_of d') = S (length (rows_of d)).

(** "Applying the same non-delete updateRow(D, r, text) twice yields the
    same result as applying it once." *)
Definition idempotent (v : Vault) (h d : string) (r : nat) (text : string)
    : Prop :=
  writable v h d → text ≠ EmptyString →
  content (run_updateRow h (Some r) text (run_updateRow h (Some r) text v)) h
  = content (run_updateRow h (Some r) text v) h.

(** The last segment of a path: what follows its last separator. *)
Fixpoint last_segment (path : string) : string :=
  match path with
  | EmptyString => EmptyString
  | String c rest =>
      if has_char "/" rest || has_char "\" rest then last_segment rest
      else if Ascii.eqb c "/" || Ascii.eqb c "\" then rest
      else path
  end.

(** A path has an extension when its last segment contains a dot. *)
Definition has_extension (path : string) : bool :=
  has_char "." (last_segment path).

(** A path denotes a directory when it ends in a path separator. *)
Definition denotes_directory (path : string) : bool :=
  endsWith path "/" || endsWith path "\".

(** "Append a default document extension if the resolved path has no
    extension and does not itself denote a directory"; a path that carries
    an extension is left unchanged. *)
Definition extension_rule (path : string) : Prop :=
  (addMdExtension path = path +:+ ".md"
   ↔ has_extension path = false ∧ denotes_directory path = false)
  ∧ (has_extension path = true → addMdExtension path = path).

End AsStated.

(** ** Sample vaults and boards *)

Module Sample.

Definition no_fault : StoreOp → string → bool := fun _ _ => false.

Definition read_fails : StoreOp → string → bool :=
  fun op _ => match op with OpRead => true | _ => false end.

(** A vault holding the single document notes.md. *)
Definition notes (data : string) : Vault :=
  mkVault {[ "notes.md" := File data ]} no_fault [].

Definition two_lines : string := "x" +:+ NL +:+ "y".

Definition milk_and_dog : string :=
  "- [ ] buy milk #todo" +:+ NL +:+ "- [ ] walk dog #todo".

Definition milk : KanbanTask.t := KanbanTask.mk "todo" false "buy milk" false.

(** A board with one task whose recorded row lies beyond the document. *)
Definition stale_board : Board KanbanTask.t :=
  mkBoard {[ "t1" := milk ]} {[ "t1" := mkMetadata "notes.md" 5 ]}
    (notes milk_and_dog) None None.

(** A board that knows the task but has lost its metadata. *)
Definition orphan_board : Board KanbanTask.t :=
  mkBoard {[ "t1" := milk ]} ∅ (notes milk_and_dog) None None.

(** A board with a configured default task path whose document exists and
    cannot be read. *)
Definition unreadable_inbox : Board KanbanTask.t :=
  mkBoard ∅ ∅
    (mkVault {[ "/inbox.md" := File "- [ ] buy milk #todo" ]} read_fails [])
    (Some "/inbox") None.

Definition dog : KanbanTask.t := KanbanTask.mk "todo" false "walk dog" false.

(** The board of the scenarios of the specification: two tasks on the two
    lines of notes.md. *)
Definition two_tasks_board : Board KanbanTask.t :=
  mkBoard {[ "t0" := milk; "t1" := dog ]}
    {[ "t0" := mkMetadata "notes.md" 0; "t1" := mkMetadata "notes.md" 1 ]}
    (notes milk_and_dog) None None.

(** A board at projects/board.md with the default task path tasks/inbox,
    whose folder and document do not exist yet. *)
Definition fresh_inbox_board : Board KanbanTask.t :=
  mkBoard ∅ ∅
    (mkVault
       {[ "projects" := Folder; "projects/board.md" := File EmptyString ]}
       no_fault [])
    (Some "tasks/inbox") (Some "projects").

Definition click : MouseEvent := mkMouseEvent true.

End Sample.

(** The rows of a document once an operation of the dispatcher has
    settled. *)
Definition rows_after {T : Type} (r : Outcome unit * Board T)
    (handle : string) : option (list string) :=
  rows_of <$> content (vault (snd r)) handle.

(** ** Further vocabulary *)

Section DispatcherVocabulary.

Context {T : Type} `{Task.Model T}.

(** The board after a line edit that went through: the task carries the
    update and its document holds [data]. *)
Definition synced (id : string) (task : T) (metadata : Metadata)
    (data : string) (b : Board T) : Board T :=
  with_vault (after_update (fileHandle metadata) data (vault b))
    (with_tasks (<[id := task]> (tasksByTaskId b)) b).

(** The board after a line edit whose read the store has failed. *)
Definition unread (id : string) (task : T) (metadata : Metadata)
    (b : Board T) : Board T :=
  with_vault (after_read (fileHandle metadata) (vault b))
    (with_tasks (<[id := task]> (tasksByTaskId b)) b).

(** The ids both maps know: the ones a line edit acts on. *)
Definition known (b : Board T) (id : string) : bool :=
  bool_decide (is_Some (tasksByTaskId b !! id)
               ∧ is_Some (metadataByTaskId b !! id)).

(** What no operation of the dispatcher changes: the metadata, the
    settings, the active file and the set of ids that have a task. *)
Definition same_frame (b b' : Board T) : Prop :=
  metadataByTaskId b' = metadataByTaskId b
  ∧ defaultTaskPath b' = defaultTaskPath b
  ∧ activeParentPath b' = activeParentPath b
  ∧ dom (tasksByTaskId b') = dom (tasksByTaskId b).

End DispatcherVocabulary.

(** ** Vocabulary of the placement of a new task *)

(** The first character of a string. *)
Definition first_char (s : string) : option ascii :=
  match s with
  | EmptyString => None
  | String c _ => Some c
  end.

(** Does the string hold two slashes in a row? *)
Fixpoint has_double_slash (s : string) : bool :=
  match s with
  | EmptyString => false
  | String c s' =>
      (Ascii.eqb c "/" && bool_decide (first_char s' = Some "/"%char))
      || has_double_slash s'
  end.

(** No operation of the store is made to fail. *)
Definition healthy (v : Vault) : Prop :=
  ∀ op path, faulty v op path = false.


(** ** The file chooser of [addNew] *)

(** The chooser folds the paths of the markdown files into nested plain
    objects ([Folder]) and shows them as menus.  A plain object is a finite
    map of its own properties.  The names a plain object inherits from
    [Object.prototype] are not own properties: a folder of such a name makes
    the code leave the plain objects, which is outside this model ([None]).
    [vault.getMarkdownFiles()] and the locale-dependent sort are taken as
    given: the functions below receive the sorted list of files. *)
Module Chooser.

#[warnings="-register-all"]
Inductive Item : Type :=
| Leaf (file : string)
| Dir (entries : gmap string Item).



(** [file.path.split("/")]. *)
Definition segments_of (path : string) : list string := split "/" path.




(** What a sequence of labels leads to, from a folder. *)
Fixpoint walk (labels : list string) (folder : gmap string Item)
    : option Item :=
  match labels with
  | [] => Some (Dir folder)
  | label :: rest =>
      match folder !! label with
      | Some (Leaf file) =>
          match rest with
          | [] => Some (Leaf file)
          | _ :: _ => None
          end
      | Some (Dir sub) => walk rest sub
      | None => None
      end
  end.



(** Modelled from the spec: the menus ([Menu] of the presentation layer).
    A shown menu reacts to a click on one of its items by running the
    callback [createMenu] gave the item; the menus are the folder of the
    shown menu followed by those of its parent menus, and empty once a file
    has been chosen. *)
Inductive Click : Type :=
| ClickBack
| ClickItem (label : string).

Definition click (column : string) (c : Click)
    (menus : list (gmap string Item)) : Async (list (gmap string Item)) :=
  match menus with
  | [] => Store.ret []
  | folder :: parents =>
      match c with
      | ClickBack =>
          (* disabled without a parent menu *)
          match parents with
          | [] => Store.ret menus
          | _ :: _ => Store.ret parents
          end
      | ClickItem label =>
          match folder !! label with
          | Some (Leaf file) =>
              await_ Store.detach (updateRow file None (newTaskLine column))
              in Store.ret []
          | Some (Dir sub) => Store.ret (sub :: menus)
          | None => Store.ret menus
          end
      end
  end.

Fixpoint clicks (column : string) (cs : list Click)
    (menus : list (gmap string Item)) : Async (list (gmap string Item)) :=
  match cs with
  | [] => Store.ret menus
  | c :: cs => await menus := click column c menus in clicks column cs menus
  end.

End Chooser.

(** ** Further sample vaults and boards *)

Module Sample2.

(** The single document notes.md, with every read failing. *)
Definition unreadable_notes (data : string) : Vault :=
  mkVault {[ "notes.md" := File data ]} Sample.read_fails [].

Definition three_lines : string :=
  "- [ ] buy milk #todo" +:+ NL +:+ "- [ ] walk dog #todo"
  +:+ NL +:+ "- [ ] call mum #todo".

Definition mum : KanbanTask.t := KanbanTask.mk "todo" false "call mum" false.

(** Three tasks on the three lines of notes.md. *)
Definition three_tasks_board : Board KanbanTask.t :=
  mkBoard {[ "t0" := Sample.milk; "t1" := Sample.dog; "t2" := mum ]}
    {[ "t0" := mkMetadata "notes.md" 0; "t1" := mkMetadata "notes.md" 1;
       "t2" := mkMetadata "notes.md" 2 ]}
    (Sample.notes three_lines) None None.

(** The two-task board with every read failing. *)
Definition unreadable_board : Board KanbanTask.t :=
  mkBoard {[ "t0" := Sample.milk; "t1" := Sample.dog ]}
    {[ "t0" := mkMetadata "notes.md" 0; "t1" := mkMetadata "notes.md" 1 ]}
    (unreadable_notes Sample.milk_and_dog) None None.

(** The folder of the files a/b.md and e.md. *)
Definition tree : gmap string Chooser.Item :=
  {[ "a" := Chooser.Dir {[ "b.md" := Chooser.Leaf "a/b.md" ]};
     "e.md" := Chooser.Leaf "e.md" ]}.

(** A vault with the documents a/b.md and e.md. *)
Definition two_files : Vault :=
  mkVault {[ "a" := Folder; "a/b.md" := File "- [ ] buy milk #todo";
             "e.md" := File EmptyString ]}
    Sample.no_fault [].

End Sample2.

(** * Properties *)

(** ** [split] and [join] *)

Section SplitJoin.

Variable sep : ascii.

Lemma split_not_nil (s : string) : split sep s ≠ [].
Proof.
  destruct s as [|c s]; simpl; [discriminate|].
  destruct (Ascii.eqb c sep); [discriminate|].
  destruct (split sep s); discriminate.
Qed.

Lemma split_length_pos (s : string) : 0 < length (split sep s).
Proof.
  pose proof (split_not_nil s) as Hne.
  destruct (split sep s); [congruence | simpl; lia].
Qed.

Lemma join_cons_cons (x y : string) (rows : list string) :
  join sep (x :: y :: rows) = x +:+ String sep (join sep (y :: rows)).
Proof. reflexivity. Qed.

Lemma join_cons_char (c : ascii) (row : string) (rows : list string) :
  join sep (String c row :: rows) = String c (join sep (row :: rows)).
Proof. destruct rows; reflexivity. Qed.

(** Joining the rows of a text gives the text back. *)
Lemma join_split (s : string) : join sep (split sep s) = s.
Proof.
  induction s as [|c s IH]; [reflexivity|].
  pose proof (split_not_nil s) as Hne. simpl.
  destruct (split sep s) as [|row rows] eqn:Hs; [congruence|].
  destruct (Ascii.eqb_spec c sep) as [->|Hc].
  - rewrite join_cons_cons, IH. reflexivity.
  - rewrite join_cons_char, IH. reflexivity.
Qed.

(** No row of a text holds the separator. *)
Lemma split_rows_clean (s : string) :
  Forall (λ row, has_char sep row = false) (split sep s).
Proof.
  induction s as [|c s IH]; simpl.
  - by constructor.
  - destruct (Ascii.eqb c sep) eqn:Hc.
    + by constructor.
    + destruct (split sep s) as [|row rows].
      * constructor; [simpl; by rewrite Hc | constructor].
      * inversion IH; subst. constructor; [simpl; by rewrite Hc | done].
Qed.

Lemma split_clean (s : string) : has_char sep s = false → split sep s = [s].
Proof.
  induction s as [|c s IH]; simpl; [done|].
  intros [Hc Hs]%orb_false_iff. rewrite Hc, (IH Hs). done.
Qed.

Lemma split_app_sep (x s : string) :
  has_char sep x = false →
  split sep (x +:+ String sep s) = x :: split sep s.
Proof.
  induction x as [|c x IH]; simpl.
  - intros _. by rewrite Ascii.eqb_refl.
  - intros [Hc Hx]%orb_false_iff. by rewrite Hc, (IH Hx).
Qed.

(** Splitting the join of clean rows gives the rows back, provided there
    is a row at all: the join of no row is the empty text, whose split is
    one empty row. *)
Lemma split_join (rows : list string) :
  rows ≠ [] →
  Forall (λ row, has_char sep row = false) rows →
  split sep (join sep rows) = rows.
Proof.
  induction rows as [|x rows IH]; [done|].
  intros _ Hclean. inversion Hclean as [|? ? Hx Hrows]; subst.
  destruct rows as [|y rows].
  - by apply split_clean.
  - rewrite join_cons_cons, split_app_sep by done. f_equal. by apply IH.
Qed.

Lemma join_nil : join sep [] = EmptyString.
Proof. reflexivity. Qed.

Lemma join_snoc (rows : list string) (x : string) :
  rows ≠ [] →
  join sep (rows ++ [x]) = join sep rows +:+ String sep x.
Proof.
  induction rows as [|y rows IH]; [done|]. intros _.
  destruct rows as [|z rows]; [reflexivity|].
  change ((y :: z :: rows) ++ [x]) with (y :: z :: (rows ++ [x])).
  rewrite !join_cons_cons.
  change (z :: rows ++ [x]) with ((z :: rows) ++ [x]).
  rewrite IH by done.
  generalize (join sep (z :: rows)); intros t.
  induction y as [|c y IHy]; [reflexivity|].
  change (String c (y +:+ String sep (t +:+ String sep x))
          = String c ((y +:+ String sep t) +:+ String sep x)).
  by rewrite IHy.
Qed.

End SplitJoin.

(** ** Array updates *)

Lemma set_inside (rows : list string) (i : nat) (x : string) :
  i < length rows → JsArray.set rows i x = <[i := x]> rows.
Proof. intros Hi. unfold JsArray.set. by rewrite decide_True. Qed.

Lemma set_at_end (rows : list string) (x : string) :
  JsArray.set rows (length rows) x = rows ++ [x].
Proof.
  unfold JsArray.set. rewrite decide_False by lia.
  by rewrite Nat.sub_diag.
Qed.

Lemma set_not_nil (rows : list string) (i : nat) (x : string) :
  JsArray.set rows i x ≠ [].
Proof.
  unfold JsArray.set. case_decide as Hi.
  - destruct rows; [simpl in Hi; lia | by destruct i].
  - intros Heq. apply (f_equal length) in Heq.
    rewrite !length_app in Heq. simpl in Heq. lia.
Qed.

Lemma set_lookup_same (rows : list string) (i : nat) (x : string) :
  i ≤ length rows → JsArray.set rows i x !! i = Some x.
Proof.
  intros Hi. destruct (decide (i < length rows)) as [Hlt|Hge].
  - rewrite set_inside by done. by apply list_lookup_insert_eq.
  - assert (i = length rows) as -> by lia.
    rewrite set_at_end. by rewrite lookup_app_r, Nat.sub_diag.
Qed.

Lemma set_length (rows : list string) (i : nat) (x : string) :
  i ≤ length rows → i < length (JsArray.set rows i x).
Proof.
  intros Hi. apply lookup_lt_is_Some. rewrite set_lookup_same by done. eauto.
Qed.

Lemma set_clean (sep : ascii) (rows : list string) (i : nat) (x : string) :
  i ≤ length rows →
  has_char sep x = false →
  Forall (λ row, has_char sep row = false) rows →
  Forall (λ row, has_char sep row = false) (JsArray.set rows i x).
Proof.
  intros Hi Hx Hrows. destruct (decide (i < length rows)) as [Hlt|Hge].
  - rewrite set_inside by done. by apply Forall_insert.
  - assert (i = length rows) as -> by lia.
    rewrite set_at_end. apply Forall_app. split; [done|]. by constructor.
Qed.

(** ** The store operations on a healthy document *)

Lemma read_ok (v : Vault) (h d : string) :
  readable v h d → Store.read h v = (Resolved d, after_read h v).
Proof.
  intros [Hf Hn]. unfold Store.read, content. simpl. by rewrite Hf, Hn.
Qed.

Lemma modify_ok (v : Vault) (h d data : string) :
  faulty v OpModify h = false →
  nodes v !! h = Some (File d) →
  Store.modify h data v
  = (Resolved tt, Store.put h (File data) (Store.emit (EvModify h data) v)).
Proof.
  intros Hf Hn. unfold Store.modify, content. simpl. by rewrite Hf, Hn.
Qed.

(** The two ways a call on a readable document ends: the guard returns
    after the read, or the patched rows are written. *)
Lemma updateRow_guarded (v : Vault) (h d : string) (row : option nat)
    (text : string) :
  readable v h d →
  length (rows_of d) < default (length (rows_of d)) row →
  updateRow h row text v = (Resolved tt, after_read h v).
Proof.
  intros Hr Hlt. unfold updateRow, Store.bind. rewrite (read_ok _ _ _ Hr).
  destruct row as [r|]; simpl in *; [|lia]. by rewrite decide_True.
Qed.

Lemma updateRow_writes (v : Vault) (h d : string) (row : option nat)
    (text : string) :
  writable v h d →
  default (length (rows_of d)) row ≤ length (rows_of d) →
  updateRow h row text v
  = (Resolved tt,
     after_update h
       (join LF
          (if decide (text = EmptyString)
           then JsArray.splice1 (rows_of d) (default (length (rows_of d)) row)
           else JsArray.set (rows_of d) (default (length (rows_of d)) row)
                  text))
       v).
Proof.
  intros [Hr Hm] Hle. unfold updateRow, Store.bind.
  rewrite (read_ok _ _ _ Hr).
  assert (Hd : (match row with
                | Some r => r
                | None => length (rows_of d)
                end) = default (length (rows_of d)) row) by (by destruct row).
  rewrite Hd. rewrite decide_False by lia.
  destruct Hr as [_ Hn]. by rewrite (modify_ok _ h d).
Qed.

Lemma legacy_updateRow_as_current (h : string) (r : nat) (text : string)
    (v : Vault) :
  text ≠ EmptyString →
  Legacy.updateRow h r text v = updateRow h (Some r) text v.
Proof.
  intros Htext. unfold Legacy.updateRow, updateRow, Store.bind.
  destruct (Store.read h v) as [[file|e] v']; [|done].
  case_decide; [done|]. by rewrite (decide_False (P := text = EmptyString)).
Qed.

Lemma legacy_updateRow_guarded (v : Vault) (h d : string) (r : nat)
    (text : string) :
  readable v h d →
  length (rows_of d) < r →
  Legacy.updateRow h r text v = (Resolved tt, after_read h v).
Proof.
  intros Hr Hlt. unfold Legacy.updateRow, Store.bind.
  rewrite (read_ok _ _ _ Hr). by rewrite decide_True.
Qed.

Lemma content_after_update (v : Vault) (h data : string) :
  content (after_update h data v) h = Some data.
Proof. unfold content, after_update. simpl. by rewrite lookup_insert_eq. Qed.

Lemma content_after_update_ne (v : Vault) (h h' data : string) :
  h ≠ h' → content (after_update h data v) h' = content v h'.
Proof.
  intros Hne. unfold content, after_update. simpl.
  by rewrite lookup_insert_ne.
Qed.

Lemma modify_calls_after_update (v : Vault) (h data : string) :
  modify_calls (after_update h data v) = EvModify h data :: modify_calls v.
Proof. reflexivity. Qed.

Lemma modify_calls_after_read (v : Vault) (h : string) :
  modify_calls (after_read h v) = modify_calls v.
Proof. reflexivity. Qed.

Lemma delete_at_end (rows : list string) : delete (length rows) rows = rows.
Proof.
  rewrite delete_take_drop, firstn_all, drop_ge by lia. apply app_nil_r.
Qed.

Lemma delete_clean (sep : ascii) (rows : list string) (i : nat) :
  Forall (λ row, has_char sep row = false) rows →
  Forall (λ row, has_char sep row = false) (delete i rows).
Proof.
  rewrite !Forall_forall. intros Hrows x Hx.
  apply Hrows. by eapply list_elem_of_delete_inv.
Qed.

Lemma rows_of_replaced (d : string) (r : nat) (text : string) :
  has_char LF text = false →
  rows_of (replaced d r text) = <[r := text]> (rows_of d).
Proof.
  intros Htext. unfold replaced, rows_of. apply split_join.
  - pose proof (split_length_pos LF d) as Hpos.
    intros Heq. apply (f_equal length) in Heq.
    rewrite length_insert in Heq. simpl in Heq. lia.
  - apply Forall_insert; [apply split_rows_clean | done].
Qed.

Lemma rows_of_removed (d : string) (r : nat) :
  2 ≤ length (rows_of d) →
  rows_of (removed d r) = delete r (rows_of d).
Proof.
  intros Hlen. unfold removed, rows_of in *. apply split_join.
  - intros Heq. apply (f_equal length) in Heq.
    destruct (decide (r < length (split LF d))) as [Hr|Hr].
    + rewrite length_delete in Heq by (by apply lookup_lt_is_Some).
      simpl in Heq. lia.
    + rewrite delete_take_drop, firstn_all2, drop_ge, app_nil_r in Heq by lia.
      simpl in Heq. lia.
  - apply delete_clean, split_rows_clean.
Qed.

Lemma appended_is_join (d text : string) :
  join LF (JsArray.set (rows_of d) (length (rows_of d)) text)
  = appended d text.
Proof.
  rewrite set_at_end, join_snoc by apply split_not_nil.
  unfold rows_of, appended. by rewrite join_split.
Qed.

Lemma rows_of_appended (d text : string) :
  has_char LF text = false →
  rows_of (appended d text) = rows_of d ++ [text].
Proof.
  intros Htext. rewrite <- appended_is_join, set_at_end.
  unfold rows_of. apply split_join.
  - intros Heq. apply (f_equal length) in Heq.
    rewrite length_app in Heq. simpl in Heq. lia.
  - apply Forall_app. split; [apply split_rows_clean | by constructor].
Qed.

(** ** The row synchroniser: rows beyond the end *)

(** C1, as the specification states it, fails when the row index equals the
    line count: the guard lets that index through, the text becomes a new
    final line and the document is written. *)
Lemma beyond_end_unchanged_fails_at_length :
  ¬ AsStated.beyond_end_unchanged (Sample.notes "a") "notes.md" "a" 1 "x".
Proof.
  intros Hclaim.
  destruct Hclaim as (v' & Hrun & Hcontent & _).
  - by repeat split.
  - simpl. lia.
  - rewrite (updateRow_writes _ _ "a") in Hrun;
      [|by repeat split|simpl; lia].
    injection Hrun as <-. rewrite content_after_update in Hcontent.
    vm_compute in Hcontent. discriminate.
Qed.

(** C1 (amended): for every document D, every row index r greater than the
    line count of D and every text, [updateRow] (in both revisions) resolves
    after the read alone: the vault keeps its content and [vault.modify] is
    not invoked. *)
Theorem updateRow_beyond_end_no_write (v : Vault) (h d : string) (r : nat)
    (text : string) :
  readable v h d →
  length (rows_of d) < r →
  updateRow h (Some r) text v = (Resolved tt, after_read h v)
  ∧ Legacy.updateRow h r text v = (Resolved tt, after_read h v)
  ∧ nodes (after_read h v) = nodes v
  ∧ modify_calls (after_read h v) = modify_calls v.
Proof.
  intros Hr Hlt. split; [|split; [|split]].
  - by apply (updateRow_guarded v h d).
  - by apply (legacy_updateRow_guarded v h d).
  - reflexivity.
  - reflexivity.
Qed.

(** Row 2 of a document of one line: the call ends after the read. *)
Lemma updateRow_beyond_end_no_write_witness :
  readable (Sample.notes "a") "notes.md" "a"
  ∧ length (rows_of "a") < 2
  ∧ updateRow "notes.md" (Some 2) "x" (Sample.notes "a")
    = (Resolved tt, after_read "notes.md" (Sample.notes "a")).
Proof.
  assert (Hr : readable (Sample.notes "a") "notes.md" "a") by (by split).
  assert (Hlt : length (rows_of "a") < 2) by (simpl; lia).
  split; [exact Hr|]. split; [exact Hlt|].
  exact (proj1 (updateRow_beyond_end_no_write
                  (Sample.notes "a") "notes.md" "a" 2 "x" Hr Hlt)).
Defined.

(** ** The row synchroniser: replacing a row *)

(** C2, as the specification states it, fails for a text that holds a line
    feed: the text is stored as one row and read back as two. *)
Lemma row_replaced_fails_on_line_feed :
  ¬ AsStated.row_replaced (Sample.notes "a") "notes.md" "a" 0 Sample.two_lines.
Proof.
  intros Hclaim.
  destruct Hclaim as (v' & d' & Hrun & Hcontent & _ & Hlen).
  - by repeat split.
  - simpl. lia.
  - discriminate.
  - rewrite (updateRow_writes _ _ "a") in Hrun;
      [|by repeat split|simpl; lia].
    injection Hrun as <-. rewrite content_after_update in Hcontent.
    injection Hcontent as <-. vm_compute in Hlen. discriminate.
Qed.

(** C2 (amended): for every document D, every row index r below the line
    count of D and every non-empty text without line feed, [updateRow] (in
    both revisions) writes back the document whose rows are those of D with
    row r replaced by the text: the line count is the same, every other row
    is the same, and no other document changes. *)
Theorem updateRow_replaces_row (v : Vault) (h d : string) (r : nat)
    (text : string) :
  writable v h d →
  r < length (rows_of d) →
  text ≠ EmptyString →
  has_char LF text = false →
  updateRow h (Some r) text v
  = (Resolved tt, after_update h (replaced d r text) v)
  ∧ Legacy.updateRow h r text v
    = (Resolved tt, after_update h (replaced d r text) v)
  ∧ content (after_update h (replaced d r text) v) h
    = Some (replaced d r text)
  ∧ rows_of (replaced d r text) = <[r := text]> (rows_of d)
  ∧ length (rows_of (replaced d r text)) = length (rows_of d)
  ∧ rows_of (replaced d r text) !! r = Some text
  ∧ (∀ i, i ≠ r → rows_of (replaced d r text) !! i = rows_of d !! i)
  ∧ (∀ h', h ≠ h' →
       content (after_update h (replaced d r text) v) h' = content v h').
Proof.
  intros Hw Hr Htext Hclean.
  assert (Hrun : updateRow h (Some r) text v
                 = (Resolved tt, after_update h (replaced d r text) v)).
  { rewrite (updateRow_writes v h d) by (done || simpl; lia).
    simpl. rewrite decide_False by done. by rewrite set_inside. }
  pose proof (rows_of_replaced d r text Hclean) as Hrows.
  repeat split.
  - exact Hrun.
  - by rewrite legacy_updateRow_as_current.
  - apply content_after_update.
  - exact Hrows.
  - by rewrite Hrows, length_insert.
  - rewrite Hrows. by apply list_lookup_insert_eq.
  - intros i Hi. rewrite Hrows. by apply list_lookup_insert_ne.
  - intros h' Hne. by apply content_after_update_ne.
Qed.

(** The second line of the two-line document is replaced. *)
Lemma updateRow_replaces_row_witness :
  updateRow "notes.md" (Some 1) "- [ ] walk dog #doing"
    (Sample.notes Sample.milk_and_dog)
  = (Resolved tt,
     after_update "notes.md"
       (replaced Sample.milk_and_dog 1 "- [ ] walk dog #doing")
       (Sample.notes Sample.milk_and_dog)).
Proof.
  refine (proj1 (updateRow_replaces_row (Sample.notes Sample.milk_and_dog)
                   "notes.md" Sample.milk_and_dog 1 "- [ ] walk dog #doing"
                   _ _ _ _)).
  - by repeat split.
  - vm_compute. lia.
  - discriminate.
  - reflexivity.
Defined.

(** ** The row synchroniser: removing a row *)

(** C3, as the specification states it, fails on a document of one line:
    the file is written empty, and the empty text still splits into one
    (empty) row, so the line count stays 1. *)
Lemma row_removed_fails_on_single_line :
  ¬ AsStated.row_removed (Sample.notes "a") "notes.md" "a" 0.
Proof.
  intros Hclaim.
  destruct Hclaim as (v' & d' & Hrun & Hcontent & _ & Hlen).
  - by repeat split.
  - simpl. lia.
  - rewrite (updateRow_writes _ _ "a") in Hrun;
      [|by repeat split|simpl; lia].
    injection Hrun as <-. rewrite content_after_update in Hcontent.
    injection Hcontent as <-. vm_compute in Hlen. discriminate.
Qed.

(** C3 (amended): for every document D and every row index r below the line
    count of D, [updateRow] with the empty text writes back the join of the
    rows of D without row r.  When D has at least two lines, the written
    document has exactly the rows of D without row r: one line fewer, the
    rows before r in place and the rows after r moved up by one.  When D has
    a single line, the written document is the empty text. *)
Theorem updateRow_removes_row (v : Vault) (h d : string) (r : nat) :
  writable v h d →
  r < length (rows_of d) →
  updateRow h (Some r) EmptyString v
  = (Resolved tt, after_update h (removed d r) v)
  ∧ content (after_update h (removed d r) v) h = Some (removed d r)
  ∧ (2 ≤ length (rows_of d) →
       rows_of (removed d r) = delete r (rows_of d)
       ∧ S (length (rows_of (removed d r))) = length (rows_of d)
       ∧ (∀ i, i < r → rows_of (removed d r) !! i = rows_of d !! i)
       ∧ (∀ i, r ≤ i → rows_of (removed d r) !! i = rows_of d !! S i))
  ∧ (length (rows_of d) = 1 → removed d r = EmptyString).
Proof.
  intros Hw Hr. split; [|split; [|split]].
  - rewrite (updateRow_writes v h d) by (done || simpl; lia).
    reflexivity.
  - apply content_after_update.
  - intros Hlen. pose proof (rows_of_removed d r Hlen) as Hrows.
    rewrite Hrows. repeat split.
    + rewrite length_delete by (by apply lookup_lt_is_Some). lia.
    + intros i Hi. by apply list_lookup_delete_lt.
    + intros i Hi. by apply list_lookup_delete_ge.
  - intros Hlen. unfold removed.
    destruct (rows_of d) as [|row [|row' rows]]; simpl in *; try lia.
    assert (r = 0) as -> by lia. reflexivity.
Qed.

(** The first line of the two-line document is removed and the second
    remains. *)
Lemma updateRow_removes_row_witness :
  updateRow "notes.md" (Some 0) EmptyString (Sample.notes Sample.milk_and_dog)
  = (Resolved tt,
     after_update "notes.md" (removed Sample.milk_and_dog 0)
       (Sample.notes Sample.milk_and_dog))
  ∧ rows_of (removed Sample.milk_and_dog 0) = ["- [ ] walk dog #todo"].
Proof.
  assert (Hw : writable (Sample.notes Sample.milk_and_dog) "notes.md"
                 Sample.milk_and_dog) by (by repeat split).
  assert (Hr : 0 < length (rows_of Sample.milk_and_dog)) by (vm_compute; lia).
  assert (Hlen : 2 ≤ length (rows_of Sample.milk_and_dog))
    by (vm_compute; lia).
  destruct (updateRow_removes_row _ _ _ 0 Hw Hr) as (Hrun & _ & Hrows & _).
  split; [exact Hrun|].
  destruct (Hrows Hlen) as (-> & _). reflexivity.
Defined.

(** ** The row synchroniser: appending a row *)

(** Whatever the text, an append writes the old content, a line feed and
    the text. *)
Lemma updateRow_append_content (v : Vault) (h d text : string) :
  writable v h d →
  text ≠ EmptyString →
  updateRow h None text v = (Resolved tt, after_update h (appended d text) v).
Proof.
  intros Hw Htext. rewrite (updateRow_writes v h d) by (done || simpl; lia).
  simpl. rewrite decide_False by done. by rewrite appended_is_join.
Qed.

(** C4, as the specification states it, fails for a text that holds a line
    feed: the line count grows by the number of lines of the text. *)
Lemma row_appended_fails_on_line_feed :
  ¬ AsStated.row_appended (Sample.notes "a") "notes.md" "a" Sample.two_lines.
Proof.
  intros Hclaim.
  destruct Hclaim as (v' & d' & Hrun & Hcontent & _ & Hlen).
  - by repeat split.
  - discriminate.
  - rewrite (updateRow_append_content _ _ "a") in Hrun;
      [|by repeat split|discriminate].
    injection Hrun as <-. rewrite content_after_update in Hcontent.
    injection Hcontent as <-. vm_compute in Hlen. discriminate.
Qed.

(** C4 (amended): for every document D and every non-empty text without
    line feed, [updateRow] with the row index absent writes back D followed
    by a line feed and the text: the rows of D, unchanged, and the text as a
    new final row, so the line count grows by exactly 1. *)
Theorem updateRow_appends_row (v : Vault) (h d text : string) :
  writable v h d →
  text ≠ EmptyString →
  has_char LF text = false →
  updateRow h None text v = (Resolved tt, after_update h (appended d text) v)
  ∧ content (after_update h (appended d text) v) h = Some (appended d text)
  ∧ rows_of (appended d text) = rows_of d ++ [text]
  ∧ length (rows_of (appended d text)) = S (length (rows_of d))
  ∧ (∀ i, i < length (rows_of d) →
       rows_of (appended d text) !! i = rows_of d !! i)
  ∧ rows_of (appended d text) !! length (rows_of d) = Some text.
Proof.
  intros Hw Htext Hclean.
  pose proof (rows_of_appended d text Hclean) as Hrows.
  repeat split.
  - by apply updateRow_append_content.
  - apply content_after_update.
  - exact Hrows.
  - rewrite Hrows, length_app. simpl. lia.
  - intros i Hi. rewrite Hrows. by apply lookup_app_l.
  - rewrite Hrows, lookup_app_r by lia. by rewrite Nat.sub_diag.
Qed.

(** A new task line is appended to the two-line document. *)
Lemma updateRow_appends_row_witness :
  updateRow "notes.md" None (newTaskLine "doing")
    (Sample.notes Sample.milk_and_dog)
  = (Resolved tt,
     after_update "notes.md"
       (appended Sample.milk_and_dog (newTaskLine "doing"))
       (Sample.notes Sample.milk_and_dog)).
Proof.
  refine (proj1 (updateRow_appends_row (Sample.notes Sample.milk_and_dog)
                   "notes.md" Sample.milk_and_dog (newTaskLine "doing")
                   _ _ _)).
  - by repeat split.
  - discriminate.
  - reflexivity.
Defined.

(** ** The row synchroniser: the delete signal without a row *)

(** C10: for every document D, [updateRow] with the row index absent and
    the empty text performs a write, and the content written is D itself: no
    row is removed and none is added. *)
Theorem updateRow_absent_row_empty_text (v : Vault) (h d : string) :
  writable v h d →
  updateRow h None EmptyString v = (Resolved tt, after_update h d v)
  ∧ modify_calls (after_update h d v) = EvModify h d :: modify_calls v
  ∧ content (after_update h d v) h = Some d
  ∧ nodes (after_update h d v) = nodes v.
Proof.
  intros Hw. split; [|split; [|split]].
  - rewrite (updateRow_writes v h d) by (done || simpl; lia).
    simpl. unfold JsArray.splice1. rewrite delete_at_end.
    unfold rows_of. by rewrite join_split.
  - reflexivity.
  - apply content_after_update.
  - destruct Hw as [[_ Hn] _]. unfold after_update. simpl.
    by apply insert_id.
Qed.

(** The two-line document is written back as it was. *)
Lemma updateRow_absent_row_empty_text_witness :
  updateRow "notes.md" None EmptyString (Sample.notes Sample.milk_and_dog)
  = (Resolved tt,
     after_update "notes.md" Sample.milk_and_dog
       (Sample.notes Sample.milk_and_dog)).
Proof.
  refine (proj1 (updateRow_absent_row_empty_text
                   (Sample.notes Sample.milk_and_dog) "notes.md"
                   Sample.milk_and_dog _)).
  by repeat split.
Defined.

(** ** The row synchroniser: idempotence *)

Ltac unfold_updateRow :=
  unfold run_updateRow, updateRow, Store.bind, Store.read, Store.modify,
    Store.ret, content; simpl.

Lemma updateRow_keeps_faults (v : Vault) (h : string) (row : option nat)
    (text : string) :
  faulty (run_updateRow h row text v) = faulty v.
Proof.
  unfold_updateRow.
  destruct (faulty v OpRead h); [done|].
  destruct (nodes v !! h) as [[d|]|] eqn:Hnode; try done.
  case_decide; [done|]. simpl.
  destruct (faulty v OpModify h); [done|]. by rewrite Hnode.
Qed.

(** Either the call writes, or it leaves the documents alone whatever the
    log was. *)
Lemma updateRow_writes_or_not (v : Vault) (h : string) (row : option nat)
    (text : string) :
  (∃ d, writable v h d
        ∧ default (length (rows_of d)) row ≤ length (rows_of d))
  ∨ (∀ l, nodes (run_updateRow h row text (mkVault (nodes v) (faulty v) l))
          = nodes v).
Proof.
  destruct (faulty v OpRead h) eqn:Hread.
  { right. intros l. unfold_updateRow. by rewrite Hread. }
  destruct (nodes v !! h) as [[d|]|] eqn:Hnode.
  2,3: right; intros l; unfold_updateRow; by rewrite Hread, Hnode.
  destruct (decide (length (rows_of d) < default (length (rows_of d)) row))
    as [Hlt|Hge].
  { right. intros l. unfold run_updateRow.
    by rewrite (updateRow_guarded (mkVault (nodes v) (faulty v) l) h d row text)
      by (done || by split). }
  destruct (faulty v OpModify h) eqn:Hmodify.
  - right. intros l. unfold_updateRow. rewrite Hread, Hnode.
    destruct row as [r|]; simpl in *.
    + rewrite decide_False by lia. simpl. by rewrite Hmodify.
    + rewrite decide_False by lia. simpl. by rewrite Hmodify.
  - left. exists d. split; [by repeat split | lia].
Qed.

Lemma vault_eta (v : Vault) : v = mkVault (nodes v) (faulty v) (log v).
Proof. by destruct v. Qed.

(** A call that leaves the documents alone does so again. *)
Lemma updateRow_still_no_write (v : Vault) (h : string) (row : option nat)
    (text : string) :
  (∀ l, nodes (run_updateRow h row text (mkVault (nodes v) (faulty v) l))
        = nodes v) →
  nodes (run_updateRow h row text (run_updateRow h row text v))
  = nodes (run_updateRow h row text v).
Proof.
  intros Hquiet.
  assert (Hfirst : nodes (run_updateRow h row text v) = nodes v).
  { rewrite (vault_eta v) at 1. apply Hquiet. }
  rewrite (vault_eta (run_updateRow h row text v)) at 1.
  rewrite Hfirst, updateRow_keeps_faults. apply Hquiet.
Qed.

(** C9, as the specification states it, fails for a text that holds a line
    feed: the second call replaces only the first of the rows the first call
    wrote. *)
Lemma idempotent_fails_on_line_feed :
  ¬ AsStated.idempotent (Sample.notes "a") "notes.md" "a" 0 Sample.two_lines.
Proof.
  intros Hclaim.
  assert (Hw : writable (Sample.notes "a") "notes.md" "a") by (by repeat split).
  specialize (Hclaim Hw ltac:(discriminate)).
  vm_compute in Hclaim. discriminate.
Qed.

(** C9 (amended): for every vault, every document handle, every row index r
    and every non-empty text without line feed, two calls of
    [updateRow(D, r, text)] in succession leave the documents exactly as one
    call does; the same holds for the earlier revision. *)
Theorem updateRow_idempotent (v : Vault) (h : string) (r : nat)
    (text : string) :
  text ≠ EmptyString →
  has_char LF text = false →
  nodes (run_updateRow h (Some r) text (run_updateRow h (Some r) text v))
  = nodes (run_updateRow h (Some r) text v)
  ∧ nodes (run_legacy_updateRow h r text (run_legacy_updateRow h r text v))
    = nodes (run_legacy_updateRow h r text v).
Proof.
  intros Htext Hclean.
  assert (Hcur :
    nodes (run_updateRow h (Some r) text (run_updateRow h (Some r) text v))
    = nodes (run_updateRow h (Some r) text v)).
  { destruct (updateRow_writes_or_not v h (Some r) text)
      as [(d & Hw & Hle)|Hquiet]; [|by apply updateRow_still_no_write].
    simpl in Hle.
    set (d1 := join LF (JsArray.set (rows_of d) r text)).
    assert (Hrun1 : run_updateRow h (Some r) text v = after_update h d1 v).
    { unfold run_updateRow. rewrite (updateRow_writes v h d) by done.
      simpl. by rewrite decide_False. }
    assert (Hrows1 : rows_of d1 = JsArray.set (rows_of d) r text).
    { unfold d1, rows_of. apply split_join; [apply set_not_nil|].
      apply set_clean; [done|done|apply split_rows_clean]. }
    assert (Hw1 : writable (after_update h d1 v) h d1).
    { destruct Hw as [[Hf Hn] Hm]. repeat split; try done.
      unfold after_update. simpl. apply lookup_insert_eq. }
    rewrite Hrun1. unfold run_updateRow at 1.
    rewrite (updateRow_writes _ h d1 (Some r) text Hw1).
    2:{ simpl. rewrite Hrows1. pose proof (set_length (rows_of d) r text Hle).
        lia. }
    simpl. rewrite decide_False by done. rewrite Hrows1.
    rewrite (set_inside (JsArray.set (rows_of d) r text))
      by (by apply set_length).
    rewrite list_insert_id by (by apply set_lookup_same).
    fold d1. apply insert_id. apply lookup_insert_eq. }
  split; [exact Hcur|].
  unfold run_legacy_updateRow.
  rewrite !legacy_updateRow_as_current by done. exact Hcur.
Qed.

(** Storing a task line at the end of the two-line document, twice. *)
Lemma updateRow_idempotent_witness :
  nodes (run_updateRow "notes.md" (Some 2) "- [ ]  #doing"
           (run_updateRow "notes.md" (Some 2) "- [ ]  #doing"
              (Sample.notes Sample.milk_and_dog)))
  = nodes (run_updateRow "notes.md" (Some 2) "- [ ]  #doing"
             (Sample.notes Sample.milk_and_dog)).
Proof.
  refine (proj1 (updateRow_idempotent (Sample.notes Sample.milk_and_dog)
                   "notes.md" 2 "- [ ]  #doing" _ _)).
  - discriminate.
  - reflexivity.
Defined.

(** ** The dispatcher: missing identity and stale position *)

Section DispatcherProperties.

Context {T : Type} `{Task.Model T}.

Implicit Types (b : Board T) (id : string) (updater : T → T).

Lemma updateRowWithTask_missing b id updater :
  tasksByTaskId b !! id = None ∨ metadataByTaskId b !! id = None →
  updateRowWithTask id updater b = (Resolved tt, b).
Proof.
  unfold updateRowWithTask. intros [Hmiss|Hmiss]; rewrite Hmiss.
  - by destruct (metadataByTaskId b !! id).
  - done.
Qed.

(** A batch none of whose ids is known does nothing at all. *)
Lemma archiveTasks_all_missing b (ids : list string) :
  Forall (λ id, tasksByTaskId b !! id = None
                ∨ metadataByTaskId b !! id = None) ids →
  archiveTasks ids b = (Resolved tt, b).
Proof.
  induction 1 as [|id ids Hid _ IH]; simpl; [done|].
  by rewrite updateRowWithTask_missing.
Qed.

(** C5: for every id that the task map or the metadata map does not know,
    each line-edit operation ([changeColumn], [markDone], [updateContent],
    [deleteTask], the step of [archiveTasks] for that id, and [changeColumn]
    of the earlier revision) resolves and leaves the board as it was: no task
    is changed, and the vault, whose log records every read and write, is
    the same. *)
Theorem missing_identity_is_noop b id :
  tasksByTaskId b !! id = None ∨ metadataByTaskId b !! id = None →
  (∀ updater, updateRowWithTask id updater b = (Resolved tt, b))
  ∧ (∀ column, changeColumn id column b = (Resolved tt, b))
  ∧ markDone id b = (Resolved tt, b)
  ∧ (∀ content, updateContent id content b = (Resolved tt, b))
  ∧ deleteTask id b = (Resolved tt, b)
  ∧ (∀ ids, archiveTasks (id :: ids) b = archiveTasks ids b)
  ∧ (∀ newColumn, legacy_changeColumn id newColumn b = (Resolved tt, b)).
Proof.
  intros Hmiss.
  pose proof (λ updater, updateRowWithTask_missing b id updater Hmiss)
    as Hnoop.
  repeat split; try (intros; apply Hnoop).
  - intros ids. simpl. by rewrite Hnoop.
  - intros newColumn. unfold legacy_changeColumn.
    destruct Hmiss as [Hmiss|Hmiss]; rewrite Hmiss;
      [by destruct (metadataByTaskId b !! id) | done].
Qed.

Lemma updateRowWithTask_stale b id updater (task : T) (metadata : Metadata)
    (d : string) :
  tasksByTaskId b !! id = Some task →
  metadataByTaskId b !! id = Some metadata →
  readable (vault b) (fileHandle metadata) d →
  length (rows_of d) < rowIndex metadata →
  updateRowWithTask id updater b
  = (Resolved tt, diverged id (updater task) metadata b).
Proof.
  intros Htask Hmeta Hread Hstale.
  unfold updateRowWithTask, on_vault. rewrite Htask, Hmeta. simpl.
  by rewrite (updateRow_guarded (vault b) (fileHandle metadata) d).
Qed.

(** C8: for every line-edit operation on an id known to both maps whose
    recorded row index exceeds the line count of its document, the updater is
    applied to the task before [updateRow] meets its guard: the operation
    resolves, the task keeps the update, the documents are unchanged and
    [vault.modify] is not invoked. *)
Theorem stale_row_keeps_mutation b id (task : T) (metadata : Metadata)
    (d : string) :
  tasksByTaskId b !! id = Some task →
  metadataByTaskId b !! id = Some metadata →
  readable (vault b) (fileHandle metadata) d →
  length (rows_of d) < rowIndex metadata →
  (∀ updater,
     updateRowWithTask id updater b
     = (Resolved tt, diverged id (updater task) metadata b))
  ∧ (∀ column,
       changeColumn id column b
       = (Resolved tt, diverged id (Task.set_column column task) metadata b))
  ∧ markDone id b
    = (Resolved tt, diverged id (Task.set_done true task) metadata b)
  ∧ (∀ content,
       updateContent id content b
       = (Resolved tt, diverged id (Task.set_content content task) metadata b))
  ∧ deleteTask id b
    = (Resolved tt, diverged id (Task.delete task) metadata b)
  ∧ (∀ ids,
       archiveTasks (id :: ids) b
       = archiveTasks ids (diverged id (Task.archive task) metadata b))
  ∧ (∀ task',
       tasksByTaskId (diverged id task' metadata b) !! id = Some task'
       ∧ nodes (vault (diverged id task' metadata b)) = nodes (vault b)
       ∧ modify_calls (vault (diverged id task' metadata b))
         = modify_calls (vault b)).
Proof.
  intros Htask Hmeta Hread Hstale.
  pose proof (λ updater, updateRowWithTask_stale b id updater task metadata d
                           Htask Hmeta Hread Hstale) as Hrun.
  split; [exact Hrun|].
  split; [intros column; apply Hrun|].
  split; [apply Hrun|].
  split; [intros content; apply Hrun|].
  split; [apply Hrun|].
  split; [intros ids; simpl; by rewrite Hrun|].
  intros task'. split; [apply lookup_insert_eq|]. by split.
Qed.

(** A failure of the store met by [updateRow] is the failure of the
    line-edit operation that awaits it. *)
Lemma updateRowWithTask_propagates b id updater (task : T)
    (metadata : Metadata) (e : IOError) (v' : Vault) :
  tasksByTaskId b !! id = Some task →
  metadataByTaskId b !! id = Some metadata →
  updateRow (fileHandle metadata) (Some (rowIndex metadata))
    (Task.serialise None (updater task)) (vault b) = (Rejected e, v') →
  fst (updateRowWithTask id updater b) = Rejected e.
Proof.
  intros Htask Hmeta Hfail.
  unfold updateRowWithTask, on_vault. rewrite Htask, Hmeta. simpl.
  by rewrite Hfail.
Qed.

(** [archiveTasks] stops at the first task whose write fails. *)
Lemma archiveTasks_propagates b id (ids : list string) (e : IOError) :
  fst (updateRowWithTask id Task.archive b) = Rejected e →
  fst (archiveTasks (id :: ids) b) = Rejected e.
Proof.
  simpl. destruct (updateRowWithTask id Task.archive b) as [[[]|e'] b'];
    simpl; [discriminate | done].
Qed.

End DispatcherProperties.

Lemma updateRow_read_fault (v : Vault) (h : string) (row : option nat)
    (text : string) :
  faulty v OpRead h = true →
  updateRow h row text v = (Rejected (StoreFault OpRead h), after_read h v).
Proof.
  intros Hf. unfold updateRow, Store.bind, Store.read. simpl. by rewrite Hf.
Qed.

(** Deleting a task whose metadata is unknown changes nothing. *)
Lemma missing_identity_is_noop_witness :
  deleteTask "t1" Sample.orphan_board = (Resolved tt, Sample.orphan_board).
Proof.
  refine (proj1 (proj2 (proj2 (proj2 (proj2
    (missing_identity_is_noop Sample.orphan_board "t1" _)))))).
  right. reflexivity.
Defined.

(** Marking done a task recorded at row 5 of a two-line document. *)
Lemma stale_row_keeps_mutation_witness :
  markDone "t1" Sample.stale_board
  = (Resolved tt,
     diverged "t1" (Task.set_done true Sample.milk)
       (mkMetadata "notes.md" 5) Sample.stale_board).
Proof.
  refine (proj1 (proj2 (proj2
    (stale_row_keeps_mutation Sample.stale_board "t1" Sample.milk
       (mkMetadata "notes.md" 5) Sample.milk_and_dog _ _ _ _)))).
  - reflexivity.
  - reflexivity.
  - by split.
  - vm_compute. lia.
Defined.

(** ** Placement of a new task: the document extension *)

Lemma endsWith_nil (suffix : string) :
  endsWith EmptyString suffix = String.eqb EmptyString suffix || false.
Proof. reflexivity. Qed.

Lemma endsWith_cons (c : ascii) (s suffix : string) :
  endsWith (String c s) suffix
  = String.eqb (String c s) suffix || endsWith s suffix.
Proof. reflexivity. Qed.

Lemma endsWith_correct (s suffix : string) :
  endsWith s suffix = true ↔ ∃ prefix, s = prefix +:+ suffix.
Proof.
  induction s as [|c s IH].
  - rewrite endsWith_nil, orb_false_r, String.eqb_eq. split.
    + intros <-. by exists EmptyString.
    + intros [[|c prefix] Heq]; [done | discriminate].
  - rewrite endsWith_cons, orb_true_iff, String.eqb_eq, IH. split.
    + intros [<-|[prefix ->]]; [by exists EmptyString|].
      by exists (String c prefix).
    + intros [[|c' prefix] Heq]; [by left|].
      right. exists prefix. by injection Heq.
Qed.

Lemma length_append (s t : string) :
  String.length (s +:+ t) = String.length s + String.length t.
Proof. induction s as [|c s IH]; simpl; [done | by rewrite IH]. Qed.

Lemma append_not_same (s suffix : string) :
  suffix ≠ EmptyString → s +:+ suffix ≠ s.
Proof.
  intros Hne Heq. apply (f_equal String.length) in Heq.
  rewrite length_append in Heq.
  destruct suffix; [done | simpl in Heq; lia].
Qed.

(** C6, as the specification states it, fails on a resolved path whose
    extension is not .md: the extension is appended all the same. *)
Lemma extension_rule_fails_on_other_extension :
  ¬ AsStated.extension_rule "tasks/inbox.txt".
Proof.
  intros [_ Hkept]. specialize (Hkept eq_refl). vm_compute in Hkept.
  discriminate.
Qed.

(** C6 (amended): the .md extension is appended to the resolved path if and
    only if the path ends neither in a path separator nor in .md; a path that
    ends in .md, or in a separator, is left unchanged; [addNew] uses the
    outcome as the path of the document. *)
Theorem md_extension_rule (path : string) :
  (addMdExtension path = path +:+ ".md"
   ↔ AsStated.denotes_directory path = false ∧ endsWith path ".md" = false)
  ∧ (endsWith path ".md" = true → addMdExtension path = path)
  ∧ (AsStated.denotes_directory path = true → addMdExtension path = path)
  ∧ (∀ currentFilePath defaultTaskPath,
       resolvedPath currentFilePath defaultTaskPath = path →
       fullPath currentFilePath defaultTaskPath = addMdExtension path).
Proof.
  assert (Hfull : ∀ currentFilePath defaultTaskPath,
             resolvedPath currentFilePath defaultTaskPath = path →
             fullPath currentFilePath defaultTaskPath = addMdExtension path)
    by (by intros ? ? <-).
  revert Hfull. unfold addMdExtension, AsStated.denotes_directory.
  destruct (endsWith path "/"), (endsWith path "\"), (endsWith path ".md");
    simpl; intros Hfull;
    (split;
     [split;
      [intros Heq;
       first [done
             | exfalso; symmetry in Heq; by apply append_not_same in Heq]
      |intros [? ?]; first [done | discriminate]]
     |split; [intros ?; first [reflexivity | discriminate]
             |split; [intros ?; first [reflexivity | discriminate]
                     |exact Hfull]]]).
Qed.

(** ** Failures of the store *)

(** A dropped promise never rejects the caller. *)
Lemma detach_resolves {A : Type} (m : Async A) (v : Vault) :
  fst (Store.detach m v) = Resolved tt.
Proof. unfold Store.detach. by destruct (m v) as [[a|e] v']. Qed.

(** What the store fails before the append of [addNew] does reach the
    caller: here the test whether the document exists. *)
Lemma addNew_exists_failure_propagates (defaultTaskPath currentFilePath
    column : string) (e : MouseEvent) (v : Vault) :
  trim_truthy defaultTaskPath = true →
  folderPath (fullPath currentFilePath defaultTaskPath) = EmptyString →
  faulty v OpExists (fullPath currentFilePath defaultTaskPath) = true →
  fst (addNew_with (Some defaultTaskPath) currentFilePath column e v)
  = Rejected (StoreFault OpExists (fullPath currentFilePath defaultTaskPath)).
Proof.
  intros Htrim Hfolder Hfault. unfold addNew_with. rewrite Htrim, Hfolder.
  unfold Store.bind, Store.exists_, Store.ret. simpl. by rewrite Hfault.
Qed.

(** Once the document of the default path is there, [addNew] resolves
    whatever becomes of the append: the call of [updateRow] is not awaited. *)
Lemma addNew_resolves_whatever_the_append (defaultTaskPath currentFilePath
    column : string) (e : MouseEvent) (v : Vault) (d : string) :
  trim_truthy defaultTaskPath = true →
  folderPath (fullPath currentFilePath defaultTaskPath) = EmptyString →
  faulty v OpExists (fullPath currentFilePath defaultTaskPath) = false →
  nodes v !! fullPath currentFilePath defaultTaskPath = Some (File d) →
  fst (addNew_with (Some defaultTaskPath) currentFilePath column e v)
  = Resolved tt.
Proof.
  intros Htrim Hfolder Hfault Hnode. unfold addNew_with.
  rewrite Htrim, Hfolder.
  unfold Store.bind, Store.exists_, Store.ret, Store.getAbstractFileByPath.
  simpl. rewrite Hfault, Hnode. simpl. rewrite Hnode.
  apply detach_resolves.
Qed.

(** C7 (the code departs from the claim): with the default task path
    /inbox configured, the document /inbox.md present and its read failing,
    the append of [addNew] is rejected by the store, yet [addNew] itself
    resolves: the rejection is left unhandled and does not reach the caller
    of [addNew].  The same append, awaited as the line-edit operations await
    theirs, is rejected. *)
Theorem addNew_drops_append_failure :
  fst (addNew "doing" Sample.click Sample.unreadable_inbox) = Resolved tt
  ∧ log (vault (snd (addNew "doing" Sample.click Sample.unreadable_inbox)))
    = [EvUnhandledRejection (StoreFault OpRead "/inbox.md");
       EvRead "/inbox.md"; EvExists "/inbox.md"]
  ∧ fst (updateRow "/inbox.md" None (newTaskLine "doing")
           (vault Sample.unreadable_inbox))
    = Rejected (StoreFault OpRead "/inbox.md").
Proof. vm_compute. by repeat split. Qed.

Lemma updateRow_modify_fault (v : Vault) (h d : string) (row : option nat)
    (text : string) :
  readable v h d →
  default (length (rows_of d)) row ≤ length (rows_of d) →
  faulty v OpModify h = true →
  fst (updateRow h row text v) = Rejected (StoreFault OpModify h).
Proof.
  intros Hr Hle Hf. unfold updateRow, Store.bind.
  rewrite (read_ok _ _ _ Hr).
  assert (Hd : (match row with
                | Some r => r
                | None => length (rows_of d)
                end) = default (length (rows_of d)) row) by (by destruct row).
  rewrite Hd, decide_False by lia.
  unfold Store.modify. simpl. by rewrite Hf.
Qed.

(** ** The scenarios of the specification *)

Example scenario_changeColumn :
  rows_after (changeColumn "t1" "doing" Sample.two_tasks_board) "notes.md"
  = Some ["- [ ] buy milk #todo"; "- [ ] walk dog #doing"].
Proof. vm_compute. reflexivity. Qed.

Example scenario_deleteTask :
  rows_after (deleteTask "t0" Sample.two_tasks_board) "notes.md"
  = Some ["- [ ] walk dog #todo"].
Proof. vm_compute. reflexivity. Qed.

Example scenario_default_path :
  fullPath "projects" "tasks/inbox" = "projects/tasks/inbox.md"
  ∧ folderPath "projects/tasks/inbox.md" = "projects/tasks"
  ∧ log (vault (snd (addNew "doing" Sample.click Sample.fresh_inbox_board)))
    = [EvModify "projects/tasks/inbox.md"
         (appended EmptyString "- [ ]  #doing");
       EvRead "projects/tasks/inbox.md";
       EvCreate "projects/tasks/inbox.md" EmptyString;
       EvExists "projects/tasks/inbox.md";
       EvCreateFolder "projects/tasks";
       EvExists "projects/tasks"].
Proof. vm_compute. by repeat split. Qed.

(** * Further properties of the code *)

(** ** The row synchroniser: what a call touches *)

Lemma writable_after_update (v : Vault) (h d d' : string) :
  writable v h d → writable (after_update h d' v) h d'.
Proof.
  intros [[Hf Hn] Hm]. repeat split; try done.
  unfold after_update. simpl. apply lookup_insert_eq.
Qed.

Lemma run_updateRow_writes (v : Vault) (h d : string) (row : option nat)
    (text : string) :
  writable v h d →
  default (length (rows_of d)) row ≤ length (rows_of d) →
  run_updateRow h row text v
  = after_update h
      (join LF
         (if decide (text = EmptyString)
          then JsArray.splice1 (rows_of d) (default (length (rows_of d)) row)
          else JsArray.set (rows_of d) (default (length (rows_of d)) row)
                 text))
      v.
Proof.
  intros Hw Hle. unfold run_updateRow. by rewrite (updateRow_writes v h d).
Qed.

Lemma run_updateRow_at (v : Vault) (h d : string) (r : nat) (text : string) :
  writable v h d →
  r ≤ length (rows_of d) →
  run_updateRow h (Some r) text v
  = after_update h
      (join LF
         (if decide (text = EmptyString)
          then JsArray.splice1 (rows_of d) r
          else JsArray.set (rows_of d) r text))
      v.
Proof. intros Hw Hle. by apply (run_updateRow_writes v h d (Some r)). Qed.

Lemma nodes_after_update_twice (v : Vault) (h d1 d2 : string) :
  nodes (after_update h d2 (after_update h d1 v))
  = nodes (after_update h d2 v).
Proof. unfold after_update. simpl. apply insert_insert_eq. Qed.

(** The shapes a settled call can have, with what each leaves behind. *)
Lemma updateRow_shapes (v : Vault) (h : string) (row : option nat)
    (text : string) :
  (∃ e, updateRow h row text v = (Rejected e, after_read h v))
  ∨ updateRow h row text v = (Resolved tt, after_read h v)
  ∨ (∃ e data d,
       nodes v !! h = Some (File d)
       ∧ updateRow h row text v
         = (Rejected e, Store.emit (EvModify h data) (after_read h v)))
  ∨ (∃ data d,
       nodes v !! h = Some (File d)
       ∧ updateRow h row text v = (Resolved tt, after_update h data v)).
Proof.
  unfold updateRow, Store.bind, Store.read, Store.modify, Store.ret, content.
  simpl.
  destruct (faulty v OpRead h) eqn:Hread; [left; eauto|].
  destruct (nodes v !! h) as [[d|]|] eqn:Hnode; [|left; eauto|left; eauto].
  case_decide; [right; left; done|]. simpl. rewrite Hnode.
  destruct (faulty v OpModify h) eqn:Hmodify.
  - right. right. left. eauto.
  - right. right. right. eauto.
Qed.

(** X1: a call of [updateRow], whatever its arguments and however it ends,
    leaves every other path of the vault as it was, neither creates nor
    removes a path, and leaves a document at its handle if there was one. *)
Theorem updateRow_frame (v : Vault) (h : string) (row : option nat)
    (text : string) :
  (∀ h', h' ≠ h →
     nodes (run_updateRow h row text v) !! h' = nodes v !! h')
  ∧ dom (nodes (run_updateRow h row text v)) = dom (nodes v)
  ∧ (is_Some (content (run_updateRow h row text v) h)
     ↔ is_Some (content v h)).
Proof.
  unfold run_updateRow.
  destruct (updateRow_shapes v h row text)
    as [[e ->]|[->|[(e & data & d & Hn & ->)|(data & d & Hn & ->)]]];
    simpl; try done.
  unfold content. simpl. split; [|split].
  - intros h' Hne. by rewrite lookup_insert_ne.
  - rewrite dom_insert_L. apply elem_of_dom_2 in Hn.
    apply subseteq_union_1_L. by apply singleton_subseteq_l.
  - rewrite lookup_insert_eq, Hn. split; eauto.
Qed.

(** X2: a call of [updateRow] issues exactly one read of its document, and
    after it at most one write, of the same document; nothing else is asked
    of the store. *)
Theorem updateRow_one_read_at_most_one_write (v : Vault) (h : string)
    (row : option nat) (text : string) :
  log (run_updateRow h row text v) = EvRead h :: log v
  ∨ ∃ data, log (run_updateRow h row text v)
            = EvModify h data :: EvRead h :: log v.
Proof.
  unfold run_updateRow.
  destruct (updateRow_shapes v h row text)
    as [[e ->]|[->|[(e & data & d & Hn & ->)|(data & d & Hn & ->)]]];
    simpl; eauto.
Qed.

(** X3: when [updateRow] is rejected, be it by the read or by the write, no
    document has changed. *)
Theorem updateRow_rejected_keeps_documents (v : Vault) (h : string)
    (row : option nat) (text : string) (e : IOError) :
  fst (updateRow h row text v) = Rejected e →
  nodes (run_updateRow h row text v) = nodes v.
Proof.
  unfold run_updateRow.
  destruct (updateRow_shapes v h row text)
    as [[e' ->]|[->|[(e' & data & d & Hn & ->)|(data & d & Hn & ->)]]];
    simpl; try done.
Qed.

(** The read of notes.md fails: the document stays. *)
Lemma updateRow_rejected_keeps_documents_witness :
  nodes (run_updateRow "notes.md" (Some 0) "x" (Sample2.unreadable_notes "a"))
  = nodes (Sample2.unreadable_notes "a").
Proof.
  apply (updateRow_rejected_keeps_documents (Sample2.unreadable_notes "a")
           "notes.md" (Some 0) "x" (StoreFault OpRead "notes.md")).
  reflexivity.
Defined.

(** ** The row synchroniser: how calls compose *)

(** X4: storing at a row the text that the row already holds writes the
    document back byte for byte. *)
Theorem updateRow_same_text_rewrites_document (v : Vault) (h d : string)
    (r : nat) (text : string) :
  writable v h d →
  rows_of d !! r = Some text →
  text ≠ EmptyString →
  updateRow h (Some r) text v = (Resolved tt, after_update h d v)
  ∧ nodes (after_update h d v) = nodes v.
Proof.
  intros Hw Hrow Htext. split.
  - rewrite (updateRow_writes v h d)
      by (done || simpl; apply lookup_lt_Some in Hrow; lia).
    simpl. rewrite decide_False by done.
    rewrite set_inside by (by eapply lookup_lt_Some).
    rewrite list_insert_id by done. unfold rows_of. by rewrite join_split.
  - destruct Hw as [[_ Hn] _]. unfold after_update. simpl. by apply insert_id.
Qed.

(** The second line of the two-line document stored again. *)
Lemma updateRow_same_text_rewrites_document_witness :
  updateRow "notes.md" (Some 1) "- [ ] walk dog #todo"
    (Sample.notes Sample.milk_and_dog)
  = (Resolved tt,
     after_update "notes.md" Sample.milk_and_dog
       (Sample.notes Sample.milk_and_dog)).
Proof.
  refine (proj1 (updateRow_same_text_rewrites_document
                   (Sample.notes Sample.milk_and_dog) "notes.md"
                   Sample.milk_and_dog 1 "- [ ] walk dog #todo" _ _ _)).
  - by repeat split.
  - reflexivity.
  - discriminate.
Defined.

(** X5: an append followed by the removal of the appended row gives the
    documents back as they were, for every non-empty text without line
    feed. *)
Theorem updateRow_append_then_remove (v : Vault) (h d text : string) :
  writable v h d →
  text ≠ EmptyString →
  has_char LF text = false →
  nodes (run_updateRow h (Some (length (rows_of d))) EmptyString
           (run_updateRow h None text v))
  = nodes v.
Proof.
  intros Hw Htext Hclean.
  assert (Hrun1 : run_updateRow h None text v
                  = after_update h (appended d text) v).
  { unfold run_updateRow. by rewrite (updateRow_append_content v h d). }
  rewrite Hrun1.
  pose proof (rows_of_appended d text Hclean) as Hrows.
  rewrite (run_updateRow_at _ h (appended d text))
    by (by eapply writable_after_update
        || (rewrite Hrows, length_app; simpl; lia)).
  rewrite decide_True by done. unfold JsArray.splice1. rewrite Hrows.
  rewrite (delete_middle (rows_of d) []), app_nil_r.
  unfold rows_of at 1. rewrite join_split.
  rewrite nodes_after_update_twice.
  destruct Hw as [[_ Hn] _]. unfold after_update. simpl. by apply insert_id.
Qed.

(** A task line appended to the two-line document and removed again. *)
Lemma updateRow_append_then_remove_witness :
  nodes (run_updateRow "notes.md" (Some 2) EmptyString
           (run_updateRow "notes.md" None "- [ ]  #doing"
              (Sample.notes Sample.milk_and_dog)))
  = nodes (Sample.notes Sample.milk_and_dog).
Proof.
  refine (updateRow_append_then_remove (Sample.notes Sample.milk_and_dog)
            "notes.md" Sample.milk_and_dog "- [ ]  #doing" _ _ _).
  - by repeat split.
  - discriminate.
  - reflexivity.
Defined.

(** X6: replacing a row and then storing its former text again gives the
    documents back as they were. *)
Theorem updateRow_replace_then_restore (v : Vault) (h d : string) (r : nat)
    (old text : string) :
  writable v h d →
  rows_of d !! r = Some old →
  old ≠ EmptyString →
  text ≠ EmptyString →
  has_char LF text = false →
  nodes (run_updateRow h (Some r) old (run_updateRow h (Some r) text v))
  = nodes v.
Proof.
  intros Hw Hold Hold_ne Htext Hclean.
  pose proof (lookup_lt_Some _ _ _ Hold) as Hr.
  assert (Hrun1 : run_updateRow h (Some r) text v
                  = after_update h (replaced d r text) v).
  { rewrite (run_updateRow_at v h d) by (done || lia).
    rewrite decide_False by done. by rewrite set_inside. }
  rewrite Hrun1.
  pose proof (rows_of_replaced d r text Hclean) as Hrows.
  rewrite (run_updateRow_at _ h (replaced d r text))
    by (by eapply writable_after_update
        || (rewrite Hrows, length_insert; lia)).
  rewrite decide_False by done. rewrite Hrows.
  rewrite set_inside by (by rewrite length_insert).
  rewrite list_insert_insert_eq, list_insert_id by done.
  unfold rows_of at 1. rewrite join_split.
  rewrite nodes_after_update_twice.
  destruct Hw as [[_ Hn] _]. unfold after_update. simpl. by apply insert_id.
Qed.

(** The first line of the two-line document replaced and restored. *)
Lemma updateRow_replace_then_restore_witness :
  nodes (run_updateRow "notes.md" (Some 0) "- [ ] buy milk #todo"
           (run_updateRow "notes.md" (Some 0) "- [x] buy milk #done"
              (Sample.notes Sample.milk_and_dog)))
  = nodes (Sample.notes Sample.milk_and_dog).
Proof.
  refine (updateRow_replace_then_restore (Sample.notes Sample.milk_and_dog)
            "notes.md" Sample.milk_and_dog 0 "- [ ] buy milk #todo"
            "- [x] buy milk #done" _ _ _ _ _).
  - by repeat split.
  - reflexivity.
  - discriminate.
  - discriminate.
  - reflexivity.
Defined.

(** X7: replacements of two different rows of one document can be made in
    either order: the documents end up the same. *)
Theorem updateRow_replacements_commute (v : Vault) (h d : string)
    (r1 r2 : nat) (text1 text2 : string) :
  writable v h d →
  r1 ≠ r2 →
  r1 < length (rows_of d) →
  r2 < length (rows_of d) →
  text1 ≠ EmptyString → has_char LF text1 = false →
  text2 ≠ EmptyString → has_char LF text2 = false →
  nodes (run_updateRow h (Some r2) text2 (run_updateRow h (Some r1) text1 v))
  = nodes (run_updateRow h (Some r1) text1
             (run_updateRow h (Some r2) text2 v)).
Proof.
  intros Hw Hne Hr1 Hr2 Ht1 Hc1 Ht2 Hc2.
  assert (Hstep : ∀ r text r' text',
            r < length (rows_of d) → r' < length (rows_of d) →
            text ≠ EmptyString → has_char LF text = false →
            text' ≠ EmptyString →
            nodes (run_updateRow h (Some r') text'
                     (run_updateRow h (Some r) text v))
            = nodes (after_update h
                       (join LF (<[r' := text']> (<[r := text]> (rows_of d))))
                       v)).
  { intros r text r' text' Hr Hr' Ht Hc Ht'.
    assert (Hrun1 : run_updateRow h (Some r) text v
                    = after_update h (replaced d r text) v).
    { rewrite (run_updateRow_at v h d) by (done || lia).
      rewrite decide_False by done. by rewrite set_inside. }
    rewrite Hrun1.
    pose proof (rows_of_replaced d r text Hc) as Hrows.
    rewrite (run_updateRow_at _ h (replaced d r text))
      by (by eapply writable_after_update
          || (rewrite Hrows, length_insert; lia)).
    rewrite decide_False by done. rewrite Hrows.
    rewrite set_inside by (by rewrite length_insert).
    apply nodes_after_update_twice. }
  rewrite (Hstep r1 text1 r2 text2), (Hstep r2 text2 r1 text1) by done.
  by rewrite list_insert_insert_ne.
Qed.

(** Both lines of the two-line document moved to another column. *)
Lemma updateRow_replacements_commute_witness :
  nodes (run_updateRow "notes.md" (Some 1) "- [ ] walk dog #doing"
           (run_updateRow "notes.md" (Some 0) "- [ ] buy milk #doing"
              (Sample.notes Sample.milk_and_dog)))
  = nodes (run_updateRow "notes.md" (Some 0) "- [ ] buy milk #doing"
             (run_updateRow "notes.md" (Some 1) "- [ ] walk dog #doing"
                (Sample.notes Sample.milk_and_dog))).
Proof.
  refine (updateRow_replacements_commute (Sample.notes Sample.milk_and_dog)
            "notes.md" Sample.milk_and_dog 0 1 "- [ ] buy milk #doing"
            "- [ ] walk dog #doing" _ _ _ _ _ _ _ _).
  - by repeat split.
  - discriminate.
  - vm_compute. lia.
  - vm_compute. lia.
  - discriminate.
  - reflexivity.
  - discriminate.
  - reflexivity.
Defined.

(** X8: a row index equal to the line count is treated exactly as an absent
    row index: the call appends (or, with the empty text, rewrites the
    document unchanged). *)
Theorem updateRow_index_at_end_is_append (v : Vault) (h d text : string) :
  readable v h d →
  updateRow h (Some (length (rows_of d))) text v = updateRow h None text v.
Proof.
  intros Hr. unfold updateRow, Store.bind. by rewrite (read_ok _ _ _ Hr).
Qed.

(** Row 2 of the two-line document. *)
Lemma updateRow_index_at_end_is_append_witness :
  updateRow "notes.md" (Some 2) "- [ ]  #doing"
    (Sample.notes Sample.milk_and_dog)
  = updateRow "notes.md" None "- [ ]  #doing"
      (Sample.notes Sample.milk_and_dog).
Proof.
  change 2 with (length (rows_of Sample.milk_and_dog)).
  apply (updateRow_index_at_end_is_append (Sample.notes Sample.milk_and_dog)
           "notes.md" Sample.milk_and_dog "- [ ]  #doing").
  by split.
Defined.

Lemma updateRow_replaces_row_at (v : Vault) (h d : string) (r : nat)
    (text : string) :
  writable v h d →
  r < length (rows_of d) →
  text ≠ EmptyString →
  updateRow h (Some r) text v
  = (Resolved tt, after_update h (replaced d r text) v)
  ∧ run_updateRow h (Some r) text v = after_update h (replaced d r text) v.
Proof.
  intros Hw Hr Htext.
  assert (Hrun : updateRow h (Some r) text v
                 = (Resolved tt, after_update h (replaced d r text) v)).
  { rewrite (updateRow_writes v h d) by (done || simpl; lia).
    simpl. rewrite decide_False by done. by rewrite set_inside. }
  split; [done|]. unfold run_updateRow. by rewrite Hrun.
Qed.

Lemma updateRow_removes_row_at (v : Vault) (h d : string) (r : nat) :
  writable v h d →
  r < length (rows_of d) →
  updateRow h (Some r) EmptyString v
  = (Resolved tt, after_update h (removed d r) v).
Proof.
  intros Hw Hr.
  rewrite (updateRow_writes v h d) by (done || simpl; lia). reflexivity.
Qed.

(** ** The two revisions of the row synchroniser *)

(** X9: where the current revision removes a row, the earlier one blanks
    it: with the empty text and a row inside the document it writes the
    document with that row empty, the line count unchanged. *)
Theorem legacy_updateRow_blanks_row (v : Vault) (h d : string) (r : nat) :
  writable v h d →
  r < length (rows_of d) →
  Legacy.updateRow h r EmptyString v
  = (Resolved tt, after_update h (replaced d r EmptyString) v)
  ∧ rows_of (replaced d r EmptyString) = <[r := EmptyString]> (rows_of d)
  ∧ length (rows_of (replaced d r EmptyString)) = length (rows_of d)
  ∧ updateRow h (Some r) EmptyString v
    = (Resolved tt, after_update h (removed d r) v).
Proof.
  intros Hw Hr.
  pose proof (rows_of_replaced d r EmptyString eq_refl) as Hrows.
  split; [|split; [done|split]].
  - destruct Hw as [Hread Hm]. unfold Legacy.updateRow, Store.bind.
    rewrite (read_ok _ _ _ Hread). rewrite decide_False by lia.
    rewrite set_inside by done. destruct Hread as [_ Hn].
    by rewrite (modify_ok _ h d).
  - by rewrite Hrows, length_insert.
  - rewrite (updateRow_writes v h d) by (done || simpl; lia). reflexivity.
Qed.

(** The first line of the two-line document, blanked by the earlier
    revision. *)
Lemma legacy_updateRow_blanks_row_witness :
  Legacy.updateRow "notes.md" 0 EmptyString (Sample.notes Sample.milk_and_dog)
  = (Resolved tt,
     after_update "notes.md" (replaced Sample.milk_and_dog 0 EmptyString)
       (Sample.notes Sample.milk_and_dog)).
Proof.
  refine (proj1 (legacy_updateRow_blanks_row
                   (Sample.notes Sample.milk_and_dog) "notes.md"
                   Sample.milk_and_dog 0 _ _)).
  - by repeat split.
  - vm_compute. lia.
Defined.

(** X10: the two revisions of [updateRow] settle alike, outcome and vault,
    whenever the text is not empty, and also for the empty text when the row
    lies beyond the end of the document. *)
Theorem updateRow_revisions_agree (v : Vault) (h : string) (r : nat)
    (text : string) :
  text ≠ EmptyString
  ∨ (∃ d, readable v h d ∧ length (rows_of d) < r) →
  Legacy.updateRow h r text v = updateRow h (Some r) text v.
Proof.
  intros [Htext|(d & Hread & Hlt)].
  - by apply legacy_updateRow_as_current.
  - rewrite (legacy_updateRow_guarded v h d) by done.
    by rewrite (updateRow_guarded v h d).
Qed.

(** A task line stored by either revision. *)
Lemma updateRow_revisions_agree_witness :
  Legacy.updateRow "notes.md" 1 "- [ ] walk dog #doing"
    (Sample.notes Sample.milk_and_dog)
  = updateRow "notes.md" (Some 1) "- [ ] walk dog #doing"
      (Sample.notes Sample.milk_and_dog).
Proof.
  apply (updateRow_revisions_agree (Sample.notes Sample.milk_and_dog)
           "notes.md" 1 "- [ ] walk dog #doing").
  left. discriminate.
Defined.

(** ** The dispatcher: edits that go through, edits that fail *)

Section DispatcherExtras.

Context {T : Type} `{Task.Model T}.

Implicit Types (b : Board T) (id : string) (updater : T → T).

Lemma updateRowWithTask_known b id updater (task : T) (metadata : Metadata) :
  tasksByTaskId b !! id = Some task →
  metadataByTaskId b !! id = Some metadata →
  updateRowWithTask id updater b
  = on_vault
      (updateRow (fileHandle metadata) (Some (rowIndex metadata))
         (Task.serialise None (updater task)))
      (with_tasks (<[id := updater task]> (tasksByTaskId b)) b).
Proof.
  intros Htask Hmeta. unfold updateRowWithTask. by rewrite Htask, Hmeta.
Qed.

(** X11: a line edit of a known task whose recorded row lies inside its
    document, and whose updated serialisation is one non-empty line, ends
    with memory and document in agreement: the task of the map is the updated
    task and the recorded row of the document is its serialisation, all other
    rows being unchanged. *)
Theorem line_edit_syncs_task_and_row b id updater (task : T)
    (metadata : Metadata) (d : string) :
  tasksByTaskId b !! id = Some task →
  metadataByTaskId b !! id = Some metadata →
  writable (vault b) (fileHandle metadata) d →
  rowIndex metadata < length (rows_of d) →
  Task.serialise None (updater task) ≠ EmptyString →
  has_char LF (Task.serialise None (updater task)) = false →
  updateRowWithTask id updater b
  = (Resolved tt,
     synced id (updater task) metadata
       (replaced d (rowIndex metadata) (Task.serialise None (updater task)))
       b)
  ∧ rows_of
      (replaced d (rowIndex metadata) (Task.serialise None (updater task)))
    = <[rowIndex metadata := Task.serialise None (updater task)]> (rows_of d).
Proof.
  intros Htask Hmeta Hw Hr Htext Hclean.
  split; [|by apply rows_of_replaced].
  rewrite (updateRowWithTask_known b id updater task metadata) by done.
  unfold on_vault. simpl.
  by rewrite (proj1 (updateRow_replaces_row_at (vault b) (fileHandle metadata)
                       d (rowIndex metadata) _ Hw Hr Htext)).
Qed.

(** X12: the metadata is not re-indexed when a line is removed.  After a
    line edit that removes row r1 of a document, an edit of a task recorded
    at a later row r2 of the same document stores its line at row r2 of the
    shortened document: it overwrites the line that used to follow the
    task's own, and the task's own former line stays, one row up. *)
Theorem edit_after_removal_hits_next_line b (id1 id2 : string)
    (updater1 updater2 : T → T) (task1 task2 : T) (metadata1 metadata2 :
    Metadata) (d : string) :
  id1 ≠ id2 →
  tasksByTaskId b !! id1 = Some task1 →
  tasksByTaskId b !! id2 = Some task2 →
  metadataByTaskId b !! id1 = Some metadata1 →
  metadataByTaskId b !! id2 = Some metadata2 →
  fileHandle metadata2 = fileHandle metadata1 →
  writable (vault b) (fileHandle metadata1) d →
  rowIndex metadata1 < rowIndex metadata2 →
  S (rowIndex metadata2) < length (rows_of d) →
  Task.serialise None (updater1 task1) = EmptyString →
  Task.serialise None (updater2 task2) ≠ EmptyString →
  has_char LF (Task.serialise None (updater2 task2)) = false →
  ∃ final,
    content
      (vault (snd (updateRowWithTask id2 updater2
                     (snd (updateRowWithTask id1 updater1 b)))))
      (fileHandle metadata1) = Some final
    ∧ rows_of final
      = <[rowIndex metadata2 := Task.serialise None (updater2 task2)]>
          (delete (rowIndex metadata1) (rows_of d))
    ∧ rows_of final !! rowIndex metadata2
      = Some (Task.serialise None (updater2 task2))
    ∧ rows_of final !! (rowIndex metadata2 - 1)
      = rows_of d !! rowIndex metadata2
    ∧ S (length (rows_of final)) = length (rows_of d).
Proof.
  intros Hne Ht1 Ht2 Hm1 Hm2 Hfile Hw Hlt Hlen Hgone Htext Hclean.
  set (r1 := rowIndex metadata1) in *. set (r2 := rowIndex metadata2) in *.
  set (h := fileHandle metadata1) in *.
  set (text := Task.serialise None (updater2 task2)) in *.
  assert (Hrows1 : rows_of (removed d r1) = delete r1 (rows_of d))
    by (apply rows_of_removed; lia).
  assert (Hlen1 : S (length (rows_of (removed d r1))) = length (rows_of d)).
  { rewrite Hrows1, length_delete; [lia|]. apply lookup_lt_is_Some. lia. }
  assert (Hstep1 : updateRowWithTask id1 updater1 b
                   = (Resolved tt,
                      synced id1 (updater1 task1) metadata1 (removed d r1) b)).
  { rewrite (updateRowWithTask_known b id1 updater1 task1 metadata1) by done.
    unfold on_vault. simpl. rewrite Hgone.
    fold h r1.
    by rewrite (updateRow_removes_row_at (vault b) h d r1) by (done || lia). }
  rewrite Hstep1. simpl.
  rewrite (updateRowWithTask_known _ id2 updater2 task2 metadata2);
    [|by simpl; rewrite lookup_insert_ne|done].
  unfold on_vault. simpl. rewrite Hfile. fold h r2 text.
  rewrite (proj1 (updateRow_replaces_row_at _ h (removed d r1) r2 text
                    ltac:(by eapply writable_after_update) ltac:(lia) Htext)).
  simpl. exists (replaced (removed d r1) r2 text).
  assert (Hfinal : rows_of (replaced (removed d r1) r2 text)
                   = <[r2 := text]> (delete r1 (rows_of d)))
    by (by rewrite rows_of_replaced, Hrows1).
  split; [apply content_after_update|]. split; [done|].
  rewrite Hfinal. split; [|split].
  - apply list_lookup_insert_eq. rewrite <- Hrows1. lia.
  - rewrite list_lookup_insert_ne by lia.
    rewrite list_lookup_delete_ge by lia. f_equal. lia.
  - rewrite length_insert, <- Hrows1. done.
Qed.

(** X13: when the read of the document fails, the line edit is rejected
    with the error of the store, no document has changed, and yet the task of
    the map already carries the update. *)
Theorem line_edit_read_failure_keeps_update b id updater (task : T)
    (metadata : Metadata) :
  tasksByTaskId b !! id = Some task →
  metadataByTaskId b !! id = Some metadata →
  faulty (vault b) OpRead (fileHandle metadata) = true →
  updateRowWithTask id updater b
  = (Rejected (StoreFault OpRead (fileHandle metadata)),
     unread id (updater task) metadata b)
  ∧ tasksByTaskId (unread id (updater task) metadata b) !! id
    = Some (updater task)
  ∧ nodes (vault (unread id (updater task) metadata b)) = nodes (vault b).
Proof.
  intros Htask Hmeta Hfault. split; [|split].
  - rewrite (updateRowWithTask_known b id updater task metadata) by done.
    unfold on_vault. simpl. by rewrite updateRow_read_fault.
  - apply lookup_insert_eq.
  - reflexivity.
Qed.

Lemma updateRowWithTask_same_frame b id updater :
  same_frame b (snd (updateRowWithTask id updater b))
  ∧ (∀ id', id' ≠ id →
       tasksByTaskId (snd (updateRowWithTask id updater b)) !! id'
       = tasksByTaskId b !! id').
Proof.
  unfold updateRowWithTask, same_frame.
  destruct (metadataByTaskId b !! id) as [metadata|]; [|done].
  destruct (tasksByTaskId b !! id) as [task|] eqn:Htask; [|done].
  unfold on_vault. simpl.
  destruct (updateRow _ _ _ _) as [r v']. simpl.
  repeat split; try done.
  - rewrite dom_insert_L. apply elem_of_dom_2 in Htask.
    apply subseteq_union_1_L. by apply singleton_subseteq_l.
  - intros id' Hne. by rewrite lookup_insert_ne.
Qed.




(** X15: [archiveTasks] on a list is [archiveTasks] on its first part
    followed, if that resolved, by [archiveTasks] on the rest; a rejection
    ends the batch, and the ids after it are not processed. *)
Theorem archiveTasks_app (ids1 ids2 : list string) b :
  archiveTasks (ids1 ++ ids2) b
  = match archiveTasks ids1 b with
    | (Resolved _, b') => archiveTasks ids2 b'
    | (Rejected e, b') => (Rejected e, b')
    end.
Proof.
  revert b. induction ids1 as [|id ids1 IH]; intros b; simpl; [done|].
  destruct (updateRowWithTask id Task.archive b) as [[[]|e] b']; [|done].
  apply IH.
Qed.

Lemma known_same_frame b b' id :
  same_frame b b' → known b' id = known b id.
Proof.
  intros (Hmeta & _ & _ & Hdom). unfold known. rewrite Hmeta.
  apply bool_decide_ext. rewrite <- !elem_of_dom, Hdom. done.
Qed.

Lemma updateRowWithTask_unknown b id updater :
  known b id = false → updateRowWithTask id updater b = (Resolved tt, b).
Proof.
  intros Hunknown. apply updateRowWithTask_missing.
  unfold known in Hunknown. apply bool_decide_eq_false in Hunknown.
  destruct (tasksByTaskId b !! id) eqn:Ht; [|by left].
  destruct (metadataByTaskId b !! id) eqn:Hm; [|by right].
  exfalso. apply Hunknown. split; eauto.
Qed.

(** X16: [archiveTasks] passes over the ids it does not know: a batch
    settles exactly as the batch of its known ids does. *)
Theorem archiveTasks_skips_unknown (ids : list string) b :
  archiveTasks ids b = archiveTasks (List.filter (known b) ids) b.
Proof.
  revert b. induction ids as [|id ids IH]; intros b; simpl; [done|].
  destruct (known b id) eqn:Hknown; simpl.
  - pose proof (proj1 (updateRowWithTask_same_frame b id Task.archive))
      as Hframe.
    destruct (updateRowWithTask id Task.archive b) as [[[]|e] b'];
      simpl in *; [|done].
    rewrite IH. f_equal. apply List.filter_ext. intros id'.
    by apply known_same_frame.
  - rewrite updateRowWithTask_unknown by done. apply IH.
Qed.

(** X17: [changeColumn] of the earlier revision, on a known task whose
    recorded row lies inside its document, stores at that row the task
    serialised with the new column and changes nothing else of the board: the
    task of the map keeps its old column. *)
Theorem legacy_changeColumn_writes_override b id (newColumn : string)
    (task : T) (metadata : Metadata) (d : string) :
  tasksByTaskId b !! id = Some task →
  metadataByTaskId b !! id = Some metadata →
  writable (vault b) (fileHandle metadata) d →
  rowIndex metadata < length (rows_of d) →
  Task.serialise (Some newColumn) task ≠ EmptyString →
  has_char LF (Task.serialise (Some newColumn) task) = false →
  legacy_changeColumn id newColumn b
  = (Resolved tt,
     with_vault
       (after_update (fileHandle metadata)
          (replaced d (rowIndex metadata)
             (Task.serialise (Some newColumn) task))
          (vault b)) b)
  ∧ rows_of
      (replaced d (rowIndex metadata) (Task.serialise (Some newColumn) task))
    = <[rowIndex metadata := Task.serialise (Some newColumn) task]>
        (rows_of d).
Proof.
  intros Htask Hmeta Hw Hr Htext Hclean.
  split; [|by apply rows_of_replaced].
  unfold legacy_changeColumn. rewrite Htask, Hmeta. unfold on_vault.
  rewrite legacy_updateRow_as_current by done.
  by rewrite (proj1 (updateRow_replaces_row_at (vault b) (fileHandle metadata)
                       d (rowIndex metadata) _ Hw Hr Htext)).
Qed.

(** X28: a line edit whose updated task serialises to the empty text (as
    the delete transition makes it) removes the recorded row from the
    document, while the task stays in the map, updated; in a document of at
    least two lines the rows are those of before without that row. *)
Theorem line_edit_empty_serialisation_removes_row b id updater (task : T)
    (metadata : Metadata) (d : string) :
  tasksByTaskId b !! id = Some task →
  metadataByTaskId b !! id = Some metadata →
  writable (vault b) (fileHandle metadata) d →
  rowIndex metadata < length (rows_of d) →
  Task.serialise None (updater task) = EmptyString →
  updateRowWithTask id updater b
  = (Resolved tt,
     synced id (updater task) metadata (removed d (rowIndex metadata)) b)
  ∧ tasksByTaskId
      (synced id (updater task) metadata (removed d (rowIndex metadata)) b)
    !! id = Some (updater task)
  ∧ (2 ≤ length (rows_of d) →
     rows_of (removed d (rowIndex metadata))
     = delete (rowIndex metadata) (rows_of d)).
Proof.
  intros Htask Hmeta Hw Hr Hgone. split; [|split].
  - rewrite (updateRowWithTask_known b id updater task metadata) by done.
    unfold on_vault. simpl. rewrite Hgone.
    by rewrite (updateRow_removes_row_at (vault b) (fileHandle metadata) d).
  - apply lookup_insert_eq.
  - apply rows_of_removed.
Qed.

End DispatcherExtras.

(** The second task of the two-task board moved to another column. *)
Lemma line_edit_syncs_task_and_row_witness :
  changeColumn "t1" "doing" Sample.two_tasks_board
  = (Resolved tt,
     synced "t1" (Task.set_column "doing" Sample.dog)
       (mkMetadata "notes.md" 1)
       (replaced Sample.milk_and_dog 1 "- [ ] walk dog #doing")
       Sample.two_tasks_board).
Proof.
  refine (proj1 (line_edit_syncs_task_and_row Sample.two_tasks_board "t1"
                   (Task.set_column "doing") Sample.dog
                   (mkMetadata "notes.md" 1) Sample.milk_and_dog
                   _ _ _ _ _ _)).
  - reflexivity.
  - reflexivity.
  - by repeat split.
  - vm_compute. lia.
  - discriminate.
  - reflexivity.
Defined.

(** On the three-task board the first task is deleted and the second is
    then marked done: the line of the third task is overwritten and the
    second task's old line remains. *)
Lemma edit_after_removal_hits_next_line_witness :
  ∃ final,
    content
      (vault (snd (markDone "t1" (snd (deleteTask "t0"
                                         Sample2.three_tasks_board)))))
      "notes.md" = Some final
    ∧ rows_of final = ["- [ ] walk dog #todo"; "- [x] walk dog #todo"].
Proof.
  destruct (edit_after_removal_hits_next_line Sample2.three_tasks_board
              "t0" "t1" Task.delete (Task.set_done true)
              Sample.milk Sample.dog
              (mkMetadata "notes.md" 0) (mkMetadata "notes.md" 1)
              Sample2.three_lines)
    as (final & Hcontent & Hrows & _).
  - discriminate.
  - reflexivity.
  - reflexivity.
  - reflexivity.
  - reflexivity.
  - reflexivity.
  - by repeat split.
  - simpl. lia.
  - vm_compute. lia.
  - reflexivity.
  - discriminate.
  - reflexivity.
  - exists final. split; [exact Hcontent|]. rewrite Hrows. reflexivity.
Defined.

(** Marking a task done while the store cannot read its document. *)
Lemma line_edit_read_failure_keeps_update_witness :
  markDone "t0" Sample2.unreadable_board
  = (Rejected (StoreFault OpRead "notes.md"),
     unread "t0" (Task.set_done true Sample.milk) (mkMetadata "notes.md" 0)
       Sample2.unreadable_board).
Proof.
  refine (proj1 (line_edit_read_failure_keeps_update Sample2.unreadable_board
                   "t0" (Task.set_done true) Sample.milk
                   (mkMetadata "notes.md" 0) _ _ _)).
  - reflexivity.
  - reflexivity.
  - reflexivity.
Defined.

(** The second task of the two-task board, written with another column by
    the earlier revision. *)
Lemma legacy_changeColumn_writes_override_witness :
  legacy_changeColumn "t1" "doing" Sample.two_tasks_board
  = (Resolved tt,
     with_vault
       (after_update "notes.md"
          (replaced Sample.milk_and_dog 1 "- [ ] walk dog #doing")
          (vault Sample.two_tasks_board))
       Sample.two_tasks_board).
Proof.
  refine (proj1 (legacy_changeColumn_writes_override Sample.two_tasks_board
                   "t1" "doing" Sample.dog (mkMetadata "notes.md" 1)
                   Sample.milk_and_dog _ _ _ _ _ _)).
  - reflexivity.
  - reflexivity.
  - by repeat split.
  - vm_compute. lia.
  - discriminate.
  - reflexivity.
Defined.

(** ** Placement of a new task: the resolved path *)

Lemma collapse_slashes_first_char (s : string) :
  first_char (collapse_slashes s) = first_char s.
Proof.
  induction s as [|c s IH]; [done|]. simpl.
  destruct (Ascii.eqb_spec c "/") as [->|Hc]; [|done].
  destruct s as [|c' s]; [done|].
  destruct (Ascii.eqb_spec c' "/") as [->|Hc']; [|done].
  by rewrite IH.
Qed.

Lemma collapse_slashes_no_double (s : string) :
  has_double_slash (collapse_slashes s) = false.
Proof.
  induction s as [|c s IH]; [done|].
  assert (Hkeep : (Ascii.eqb c "/"
                   && bool_decide (first_char s = Some "/"%char)) = false →
                  has_double_slash (String c (collapse_slashes s)) = false).
  { intros Hno. simpl. by rewrite collapse_slashes_first_char, Hno, IH. }
  simpl. destruct (Ascii.eqb_spec c "/") as [->|Hc].
  - destruct s as [|c' s]; [done|].
    destruct (Ascii.eqb_spec c' "/") as [->|Hc']; [exact IH|].
    apply Hkeep. simpl. rewrite bool_decide_eq_false_2; [done|congruence].
  - by apply Hkeep.
Qed.

Lemma collapse_slashes_fixed (s : string) :
  has_double_slash s = false → collapse_slashes s = s.
Proof.
  induction s as [|c s IH]; [done|]. simpl.
  intros [Hhere Hrest]%orb_false_iff.
  destruct (Ascii.eqb_spec c "/") as [->|Hc].
  - destruct s as [|c' s]; [done|]. simpl in Hhere.
    destruct (Ascii.eqb_spec c' "/") as [->|Hc'].
    + by rewrite bool_decide_eq_true_2 in Hhere.
    + f_equal. by apply IH.
  - f_equal. by apply IH.
Qed.

(** X18: a default task path that begins with a separator is taken as it
    stands, doubled slashes included; any other is appended to the directory
    of the active file, and the resolved path then holds no two slashes in a
    row.  Collapsing the slashes leaves a path without doubled slashes as it
    is. *)
Theorem resolvedPath_slashes (currentFilePath defaultTaskPath : string) :
  (isAbsolutePath defaultTaskPath = true
   ∧ resolvedPath currentFilePath defaultTaskPath = defaultTaskPath)
  ∨ (isAbsolutePath defaultTaskPath = false
     ∧ has_double_slash (resolvedPath currentFilePath defaultTaskPath) = false
     ∧ (has_double_slash (currentFilePath +:+ "/" +:+ defaultTaskPath) = false
        → resolvedPath currentFilePath defaultTaskPath
          = currentFilePath +:+ "/" +:+ defaultTaskPath)).
Proof.
  unfold resolvedPath. destruct (isAbsolutePath defaultTaskPath).
  - by left.
  - right. split; [done|]. split; [apply collapse_slashes_no_double|].
    apply collapse_slashes_fixed.
Qed.

(** ** Placement of a new task: extension and folder *)

Lemma endsWith_append (s suffix : string) :
  endsWith (s +:+ suffix) suffix = true.
Proof. apply endsWith_correct. by exists s. Qed.

(** X19: after the extension step the path ends in .md unless it ends in a
    separator, and the step applied twice is the step applied once. *)
Theorem addMdExtension_result (path : string) :
  (endsWith (addMdExtension path) ".md" = true
   ∨ endsWith (addMdExtension path) "/" = true
   ∨ endsWith (addMdExtension path) "\" = true)
  ∧ addMdExtension (addMdExtension path) = addMdExtension path.
Proof.
  unfold addMdExtension at 1 2 3 5 6.
  destruct (endsWith path "/") eqn:Hslash; simpl.
  { split; [by right; left|]. unfold addMdExtension. by rewrite Hslash. }
  destruct (endsWith path "\") eqn:Hback; simpl.
  { split; [by right; right|]. unfold addMdExtension.
    by rewrite Hslash, Hback. }
  destruct (endsWith path ".md") eqn:Hmd; simpl.
  { split; [by left|]. unfold addMdExtension.
    by rewrite Hslash, Hback, Hmd. }
  split; [left; apply endsWith_append|].
  unfold addMdExtension. rewrite endsWith_append.
  by rewrite !andb_false_r.
Qed.

Lemma lastIndexOf_absent (c : ascii) (s : string) :
  has_char c s = false → lastIndexOf c s = (-1)%Z.
Proof.
  induction s as [|c' s IH]; [done|]. simpl.
  intros [Hc Hs]%orb_false_iff. by rewrite (IH Hs), Hc.
Qed.

Lemma lastIndexOf_bounds (c : ascii) (s : string) :
  (-1 ≤ lastIndexOf c s < Z.of_nat (String.length s))%Z.
Proof.
  induction s as [|c' s IH]; simpl; [lia|].
  destruct (0 <=? lastIndexOf c s)%Z eqn:Hi; [lia|].
  destruct (Ascii.eqb c' c); lia.
Qed.

Lemma lastIndexOf_present (c : ascii) (s : string) :
  has_char c s = true → (0 ≤ lastIndexOf c s)%Z.
Proof.
  induction s as [|c' s IH]; [done|]. simpl.
  destruct (0 <=? lastIndexOf c s)%Z eqn:Hi; [apply Z.leb_le in Hi; lia|].
  destruct (Ascii.eqb c' c); simpl; [lia|].
  intros Hrest. apply IH in Hrest. apply Z.leb_gt in Hi. lia.
Qed.

(** The text before the last occurrence of [c], and the text after it. *)
Lemma lastIndexOf_splits (c : ascii) (s : string) :
  has_char c s = true →
  ∃ name,
    s = substring0 (lastIndexOf c s) s +:+ String c name
    ∧ has_char c name = false.
Proof.
  induction s as [|c' s IH]; [done|]. intros Hhas.
  destruct (has_char c s) eqn:Hs.
  - destruct (IH eq_refl) as (name & Heq & Hname).
    pose proof (lastIndexOf_present c s Hs) as Hpos.
    exists name. split; [|done].
    unfold substring0 in *. simpl lastIndexOf.
    rewrite (proj2 (Z.leb_le _ _) Hpos).
    replace (Z.to_nat (lastIndexOf c s + 1))
      with (S (Z.to_nat (lastIndexOf c s))) by lia.
    change (String c' s
            = String c' (String.substring 0 (Z.to_nat (lastIndexOf c s)) s
                         +:+ String c name)).
    by f_equal.
  - simpl in Hhas. rewrite Hs, orb_false_r in Hhas.
    apply Ascii.eqb_eq in Hhas as ->.
    exists s. split; [|done]. unfold substring0. simpl lastIndexOf.
    rewrite (lastIndexOf_absent c s Hs). simpl. by rewrite Ascii.eqb_refl.
Qed.

Lemma folderPath_cases (path : string) :
  (has_char "/" path = false ∧ folderPath path = EmptyString)
  ∨ (∃ name,
       path = folderPath path +:+ String "/" name
       ∧ has_char "/" name = false
       ∧ folderPath path ≠ path).
Proof.
  unfold folderPath. destruct (has_char "/" path) eqn:Hhas.
  - right. destruct (lastIndexOf_splits "/" path Hhas) as (name & Heq & Hn).
    exists name. split; [done|]. split; [done|].
    intros Hsame. rewrite Hsame in Heq.
    symmetry in Heq. revert Heq. apply append_not_same. discriminate.
  - left. split; [done|]. rewrite lastIndexOf_absent by done.
    by destruct path.
Qed.

(** X20: the folder path of a full path is what stands before its last
    slash: a path without slash has the empty folder path, and any other path
    is its folder path, a slash and a name without slash.  In particular the
    folder path is never the full path itself. *)
Theorem folderPath_splits (path : string) :
  (has_char "/" path = false ∧ folderPath path = EmptyString)
  ∨ (∃ name,
       path = folderPath path +:+ String "/" name
       ∧ has_char "/" name = false
       ∧ folderPath path ≠ path).
Proof. apply folderPath_cases. Qed.

(** ** Placement of a new task: the default path from end to end *)


Lemma healthy_emit (ev : Event) (v : Vault) :
  healthy v → healthy (Store.emit ev v).
Proof. done. Qed.

Lemma healthy_put (path : string) (n : Node) (v : Vault) :
  healthy v → healthy (Store.put path n v).
Proof. done. Qed.







(** ** The file chooser: the folder built from the files *)

Section ChooserProperties.

Import Chooser.

Implicit Types (folder : gmap string Item) (labels segments : list string).











Lemma segments_of_inj (file1 file2 : string) :
  segments_of file1 = segments_of file2 → file1 = file2.
Proof.
  unfold segments_of. intros Heq.
  rewrite <- (join_split "/" file1), <- (join_split "/" file2).
  by rewrite Heq.
Qed.












(** ** The file chooser: clicks *)

Lemma clicks_app (column : string) (cs1 cs2 : list Click)
    (menus : list (gmap string Item)) (v : Vault) :
  clicks column (cs1 ++ cs2) menus v
  = Store.bind (clicks column cs1 menus) (clicks column cs2) v.
Proof.
  revert menus v. induction cs1 as [|c cs1 IH]; intros menus v; [done|].
  simpl. unfold Store.bind.
  destruct (click column c menus v) as [[menus'|err] v']; [|done].
  rewrite IH. reflexivity.
Qed.



(** X27: entering folders in the chooser and clicking back as many times
    leads to the menu one started from, and asks nothing of the store. *)
Theorem chooser_enter_and_back (column : string) labels folder
    (parents : list (gmap string Item)) (sub : gmap string Item)
    (v : Vault) :
  walk labels folder = Some (Dir sub) →
  clicks column
    ((ClickItem <$> labels) ++ replicate (length labels) ClickBack)
    (folder :: parents) v
  = (Resolved (folder :: parents), v).
Proof.
  revert folder parents.
  induction labels as [|l ls IH]; intros folder parents Hwalk; [done|].
  simpl in Hwalk. destruct (folder !! l) as [[f|next]|] eqn:Hl;
    [by destruct ls| |done].
  cbn [length fmap list_fmap]. rewrite replicate_S_end.
  change ((ClickItem l :: (ClickItem <$> ls))
          ++ replicate (length ls) ClickBack ++ [ClickBack])
    with (ClickItem l
          :: (ClickItem <$> ls)
             ++ replicate (length ls) ClickBack ++ [ClickBack]).
  cbn [clicks]. unfold Store.bind at 1. simpl click. rewrite Hl.
  unfold Store.ret at 1.
  rewrite app_assoc, clicks_app. unfold Store.bind.
  by rewrite (IH next (folder :: parents)).
Qed.

End ChooserProperties.








(** Into the folder a and back. *)
Lemma chooser_enter_and_back_witness :
  Chooser.clicks "doing" [Chooser.ClickItem "a"; Chooser.ClickBack]
    [Sample2.tree] Sample2.two_files
  = (Resolved [Sample2.tree], Sample2.two_files).
Proof.
  refine (chooser_enter_and_back "doing" ["a"] Sample2.tree []
            {[ "b.md" := Chooser.Leaf "a/b.md" ]} Sample2.two_files _).
  reflexivity.
Defined.

(** Deleting the first task of the two-task board. *)
Lemma line_edit_empty_serialisation_removes_row_witness :
  deleteTask "t0" Sample.two_tasks_board
  = (Resolved tt,
     synced "t0" (Task.delete Sample.milk) (mkMetadata "notes.md" 0)
       (removed Sample.milk_and_dog 0) Sample.two_tasks_board).
Proof.
  refine (proj1 (line_edit_empty_serialisation_removes_row
                   Sample.two_tasks_board "t0" Task.delete Sample.milk
                   (mkMetadata "notes.md" 0) Sample.milk_and_dog
                   _ _ _ _ _)).
  - reflexivity.
  - reflexivity.
  - by repeat split.
  - vm_compute. lia.
  - reflexivity.
Defined.
